(** * The MATE host shell (src/index.tsx): cross-surface synchronisation

    A shallow embedding of the React component [App]: its four state
    variables, the iframe ref, the two effects, the two click handlers and
    the browser services they use (fetch, setTimeout, postMessage,
    console.error), followed by the properties of the synchronisation
    protocol between the shell and the embedded game. *)

From Stdlib Require Import String List Bool NArith Lia.
Import ListNotations.

Local Open Scope string_scope.
Local Open Scope list_scope.
Local Open Scope N_scope.

(** ** JavaScript completions

    A statement either completes normally or throws.  Reading a property of
    [null] throws a [TypeError]; every dereference of the source goes
    through [current_contentWindow] or [postMessage] below, so a missing
    guard would show up as a [Throw]. *)

Inductive Exn : Type := TypeError.

Inductive Completion (A : Type) : Type :=
| Normal (a : A)
| Throw (e : Exn).

Arguments Normal {A} a.
Arguments Throw {A} e.

Definition bind {A B : Type} (c : Completion A) (k : A -> Completion B)
  : Completion B :=
  match c with
  | Normal a => k a
  | Throw e => Throw e
  end.

Notation "x <- c ;; k" := (bind c (fun x => k))
  (at level 61, c at next level, right associativity).

(** ** Data model *)

(** [useState<'dark' | 'light'>] (line 26). *)
Inductive Theme : Type := dark | light.

Definition theme_string (t : Theme) : string :=
  match t with
  | dark => "dark"
  | light => "light"
  end.

Definition Theme_eqb (a b : Theme) : bool :=
  match a, b with
  | dark, dark | light, light => true
  | _, _ => false
  end.

(** The values that travel in the [payload] field of a message. *)
Inductive JSValue : Type :=
| JSString (s : string)
| JSBool (b : bool).

(** The object literal [{ type: ..., payload: ... }] handed to postMessage. *)
Record Message : Type := mkMessage {
  type : string;
  payload : JSValue
}.

Definition SET_THEME (t : Theme) : Message :=
  {| type := "SET_THEME"; payload := JSString (theme_string t) |}.

Definition PAUSE_GAME (b : bool) : Message :=
  {| type := "PAUSE_GAME"; payload := JSBool b |}.

(** The window of the iframe; the messages it was sent are logged in the
    state ([posted]). *)
Inductive Window : Type := window.

(** The DOM element behind [iframeRef.current]; [contentWindow] is null for
    an element that is not attached to a document. *)
Record HTMLIFrameElement : Type := mkIframe {
  contentWindow : option Window
}.

(** A pending [setTimeout] callback of the broadcast effect (lines 65-69).
    The closure captures [showDisclaimer] and [themeMode] of the render
    that scheduled it; [iframeRef.current] is read when it fires. *)
Record Timer : Type := mkTimer {
  due : N;
  captured_showDisclaimer : bool;
  captured_themeMode : Theme
}.

Record State : Type := mkState {
  themeMode : Theme;                        (* line 26 *)
  showDisclaimer : bool;                    (* line 27 *)
  activeModel : string;                     (* line 28 *)
  gameHtml : option string;                 (* line 29, None is null *)
  iframeRef : option HTMLIFrameElement;     (* line 35, iframeRef.current *)
  clock : N;                                (* milliseconds *)
  timers : list Timer;                      (* pending timeouts, oldest first *)
  inflight : list string;                   (* urls of unsettled fetches *)
  posted : list Message;                    (* postMessage log, oldest first *)
  console : list string                     (* console.error log *)
}.

(** ** Presentation derived from the theme (lines 11-22, 32-33, 132) *)

Module MATE_COLORS.
Definition backgroundDark : string := "#0E0F11".
Definition backgroundLight : string := "#F2EEE0".
Definition textDark : string := "#F2EEE0".
Definition textLight : string := "#0E0F11".
End MATE_COLORS.

Definition bg_of (t : Theme) : string :=
  if Theme_eqb t dark then MATE_COLORS.backgroundDark
  else MATE_COLORS.backgroundLight.

Definition text_of (t : Theme) : string :=
  if Theme_eqb t dark then MATE_COLORS.textDark
  else MATE_COLORS.textLight.

Definition bg (s : State) : string := bg_of (themeMode s).
Definition text (s : State) : string := text_of (themeMode s).

(** ** State setters *)

Definition setThemeMode (t : Theme) (s : State) : State :=
  mkState t (showDisclaimer s) (activeModel s) (gameHtml s) (iframeRef s)
          (clock s) (timers s) (inflight s) (posted s) (console s).

Definition setShowDisclaimer (b : bool) (s : State) : State :=
  mkState (themeMode s) b (activeModel s) (gameHtml s) (iframeRef s)
          (clock s) (timers s) (inflight s) (posted s) (console s).

Definition setActiveModel (m : string) (s : State) : State :=
  mkState (themeMode s) (showDisclaimer s) m (gameHtml s) (iframeRef s)
          (clock s) (timers s) (inflight s) (posted s) (console s).

Definition setGameHtml (h : string) (s : State) : State :=
  mkState (themeMode s) (showDisclaimer s) (activeModel s) (Some h)
          (iframeRef s) (clock s) (timers s) (inflight s) (posted s)
          (console s).

Definition set_iframeRef (r : option HTMLIFrameElement) (s : State) : State :=
  mkState (themeMode s) (showDisclaimer s) (activeModel s) (gameHtml s) r
          (clock s) (timers s) (inflight s) (posted s) (console s).

Definition set_clock (n : N) (s : State) : State :=
  mkState (themeMode s) (showDisclaimer s) (activeModel s) (gameHtml s)
          (iframeRef s) n (timers s) (inflight s) (posted s) (console s).

Definition set_timers (l : list Timer) (s : State) : State :=
  mkState (themeMode s) (showDisclaimer s) (activeModel s) (gameHtml s)
          (iframeRef s) (clock s) l (inflight s) (posted s) (console s).

Definition set_inflight (l : list string) (s : State) : State :=
  mkState (themeMode s) (showDisclaimer s) (activeModel s) (gameHtml s)
          (iframeRef s) (clock s) (timers s) l (posted s) (console s).

Definition set_posted (l : list Message) (s : State) : State :=
  mkState (themeMode s) (showDisclaimer s) (activeModel s) (gameHtml s)
          (iframeRef s) (clock s) (timers s) (inflight s) l (console s).

Definition set_console (l : list string) (s : State) : State :=
  mkState (themeMode s) (showDisclaimer s) (activeModel s) (gameHtml s)
          (iframeRef s) (clock s) (timers s) (inflight s) (posted s) l.

(** ** Browser services *)

(** [r.contentWindow] for [r = iframeRef.current]. *)
Definition current_contentWindow (r : option HTMLIFrameElement)
  : Completion (option Window) :=
  match r with
  | None => Throw TypeError
  | Some f => Normal (contentWindow f)
  end.

(** [w.postMessage(m, '*')]. *)
Definition postMessage (w : option Window) (m : Message) (s : State)
  : Completion State :=
  match w with
  | None => Throw TypeError
  | Some _ => Normal (set_posted (posted s ++ [m]) s)
  end.

(** [iframeRef.current?.contentWindow?.postMessage(m, '*')]. *)
Definition postMessage_optional (m : Message) (s : State) : Completion State :=
  match iframeRef s with
  | None => Normal s
  | Some f =>
      match contentWindow f with
      | None => Normal s
      | Some w => postMessage (Some w) m s
      end
  end.

(** [setTimeout(callback, delay)]. *)
Definition setTimeout (sd : bool) (th : Theme) (delay : N) (s : State) : State :=
  set_timers (timers s ++ [mkTimer (clock s + delay) sd th]) s.

Definition console_error (line : string) (s : State) : State :=
  set_console (console s ++ [line]) s.

(** [fetch(url)]: the request is in flight until its promise settles. *)
Definition fetch (url : string) (s : State) : State :=
  set_inflight (inflight s ++ [url]) s.

(** ** The component *)

(** Truthiness of [gameHtml] in [gameHtml && <iframe .../>] (line 137):
    null and the empty string render no iframe. *)
Definition truthy (h : option string) : bool :=
  match h with
  | None => false
  | Some EmptyString => false
  | Some _ => true
  end.

(** The condition of lines 56 and 63:
    [iframeRef.current && iframeRef.current.contentWindow]. *)
Definition surface_guard (s : State) : Completion bool :=
  match iframeRef s with
  | None => Normal false
  | Some _ =>
      w <- current_contentWindow (iframeRef s) ;;
      Normal (match w with Some _ => true | None => false end)
  end.

(** Lines 38-50, up to the first await: [load] picks the url and starts the
    fetch. *)
Definition variant_url (model : string) : string :=
  if String.eqb model "gemini3" then "./init/gemini3.html"
  else "./init/gemini2p5.html".

Definition load_effect (s : State) : State :=
  fetch (variant_url (activeModel s)) s.

(** Lines 62-71. *)
Definition broadcast_effect (s : State) : Completion State :=
  g <- surface_guard s ;;
  if g then Normal (setTimeout (showDisclaimer s) (themeMode s) 100 s)
  else Normal s.

(** Lines 66-68, run when the timeout fires. *)
Definition timer_callback (t : Timer) (s : State) : Completion State :=
  s1 <- postMessage_optional (PAUSE_GAME (captured_showDisclaimer t)) s ;;
  postMessage_optional (SET_THEME (captured_themeMode t)) s1.

Definition option_string_eqb (a b : option string) : bool :=
  match a, b with
  | None, None => true
  | Some x, Some y => String.eqb x y
  | _, _ => false
  end.

(** React's commit: the ref is attached when the iframe element appears in
    the rendered tree, detached when it disappears and left alone
    otherwise.  An attached iframe has a content window. *)
Definition commit_ref (prev s : State) : State :=
  match truthy (gameHtml prev), truthy (gameHtml s) with
  | false, true => set_iframeRef (Some (mkIframe (Some window))) s
  | true, false => set_iframeRef None s
  | _, _ => s
  end.

(** Dependency arrays of the two effects (lines 50 and 71). *)
Definition load_deps_changed (prev s : State) : bool :=
  negb (String.eqb (activeModel prev) (activeModel s)).

Definition broadcast_deps_changed (prev s : State) : bool :=
  negb (Bool.eqb (showDisclaimer prev) (showDisclaimer s)
        && option_string_eqb (gameHtml prev) (gameHtml s)
        && Theme_eqb (themeMode prev) (themeMode s)).

(** A render after state updates: commit, then the effects whose
    dependencies differ from the previous render, in declaration order.
    Setting a state variable to the value it has changes no dependency. *)
Definition rerender (prev s : State) : Completion State :=
  let s1 := commit_ref prev s in
  let s2 := if load_deps_changed prev s1 then load_effect s1 else s1 in
  if broadcast_deps_changed prev s1 then broadcast_effect s2 else Normal s2.

(** The first render (lines 26-29): nothing is mounted but the shell. *)
Definition initial_render : State :=
  mkState light true "gemini3" None None 0 [] [] [] [].

(** Mounting runs both effects. *)
Definition mount : Completion State :=
  broadcast_effect (load_effect initial_render).

(** Lines 53-59. *)
Definition toggleTheme (s : State) : Completion State :=
  let newMode := if Theme_eqb (themeMode s) dark then light else dark in
  let s1 := setThemeMode newMode s in
  g <- surface_guard s1 ;;
  if g then
    w <- current_contentWindow (iframeRef s1) ;;
    postMessage w (SET_THEME newMode) s1
  else Normal s1.

(** Line 169, the onClick of the Start button. *)
Definition confirm (s : State) : State := setShowDisclaimer false s.

(** How a fetch can settle: [fetch] rejects, [res.text()] rejects, or the
    body arrives. *)
Inductive Outcome : Type :=
| NetworkError
| BodyError
| Body (html : string).

Fixpoint remove_first (url : string) (l : list string) : list string :=
  match l with
  | [] => []
  | u :: rest => if String.eqb url u then rest else u :: remove_first url rest
  end.

(** Lines 41-47, from the first await on. *)
Definition load_settled (url : string) (o : Outcome) (s : State) : State :=
  let s1 := set_inflight (remove_first url (inflight s)) s in
  match o with
  | Body html => setGameHtml html s1
  | NetworkError | BodyError => console_error "Failed to load game" s1
  end.

(** ** Events *)

Definition on_theme_click (s : State) : Completion State :=
  s1 <- toggleTheme s ;; rerender s s1.

Definition on_start_click (s : State) : Completion State :=
  rerender s (confirm s).

Definition on_fetch_settled (url : string) (o : Outcome) (s : State)
  : Completion State :=
  rerender s (load_settled url o s).

(** [setActiveModel] is declared on line 28 and called nowhere in the
    component; this is what a call would do. *)
Definition select_variant (model : string) (s : State) : Completion State :=
  rerender s (setActiveModel model s).

(** Timers that are due at time [t] fire in the order they were set: every
    timeout of the component has the same delay, so the queue is ordered by
    due time ([base_sorted] below) and this is the order of the browser. *)
Definition is_due (t : N) (x : Timer) : bool := due x <=? t.

Fixpoint fire (l : list Timer) (s : State) : Completion State :=
  match l with
  | [] => Normal s
  | x :: rest => s1 <- timer_callback x s ;; fire rest s1
  end.

Definition elapse (ms : N) (s : State) : Completion State :=
  let t := clock s + ms in
  let ready := filter (is_due t) (timers s) in
  let waiting := filter (fun x => negb (is_due t x)) (timers s) in
  fire ready (set_timers waiting (set_clock t s)).

Inductive Event : Type :=
| FetchSettled (url : string) (o : Outcome)
| ThemeClick
| StartClick
| Elapse (ms : N).

(** The Start button exists only while the overlay is shown (line 147); a
    fetch settles only while it is in flight. *)
Definition enabled (e : Event) (s : State) : bool :=
  match e with
  | FetchSettled url _ => existsb (String.eqb url) (inflight s)
  | StartClick => showDisclaimer s
  | ThemeClick | Elapse _ => true
  end.

Definition handle (e : Event) (s : State) : Completion State :=
  match e with
  | FetchSettled url o => on_fetch_settled url o s
  | ThemeClick => on_theme_click s
  | StartClick => on_start_click s
  | Elapse ms => elapse ms s
  end.

Definition step (e : Event) (s : State) : option State :=
  if enabled e s then
    match handle e s with
    | Normal s' => Some s'
    | Throw _ => None
    end
  else None.

Fixpoint run (es : list Event) (s : State) : option State :=
  match es with
  | [] => Some s
  | e :: rest =>
      match step e s with
      | Some s' => run rest s'
      | None => None
      end
  end.

Definition init : State :=
  Eval vm_compute in
    match mount with
    | Normal s => s
    | Throw _ => initial_render
    end.

Definition reachable (s : State) : Prop :=
  exists es, run es init = Some s.

(** ** The state each handler ends in

    No handler throws (lemmas [*_normal] below), so each one is a function
    on states. *)

(** The surface can be sent to: an iframe element with a content window. *)
Definition surface_ready (s : State) : bool :=
  match iframeRef s with
  | Some f => match contentWindow f with Some _ => true | None => false end
  | None => false
  end.

Definition push (ms : list Message) (s : State) : State :=
  set_posted (posted s ++ ms) s.

Definition timer_messages (t : Timer) : list Message :=
  [PAUSE_GAME (captured_showDisclaimer t); SET_THEME (captured_themeMode t)].

Definition flip (t : Theme) : Theme :=
  match t with
  | dark => light
  | light => dark
  end.

Definition rerender_state (prev s : State) : State :=
  let s1 := commit_ref prev s in
  let s2 := if load_deps_changed prev s1 then load_effect s1 else s1 in
  if broadcast_deps_changed prev s1 && surface_ready s2
  then setTimeout (showDisclaimer s2) (themeMode s2) 100 s2
  else s2.

Definition fire_state (l : list Timer) (s : State) : State :=
  if surface_ready s then push (flat_map timer_messages l) s else s.

Definition elapse_state (ms : N) (s : State) : State :=
  let t := clock s + ms in
  fire_state (filter (is_due t) (timers s))
             (set_timers (filter (fun x => negb (is_due t x)) (timers s))
                         (set_clock t s)).

Definition handle_state (e : Event) (s : State) : State :=
  match e with
  | FetchSettled url o => rerender_state s (load_settled url o s)
  | ThemeClick =>
      let s1 := setThemeMode (flip (themeMode s)) s in
      rerender_state s
        (if surface_ready s then push [SET_THEME (flip (themeMode s))] s1
         else s1)
  | StartClick => rerender_state s (confirm s)
  | Elapse ms => elapse_state ms s
  end.

(** ** Observations on the message log and the timer queue *)

Definition is_SET_THEME (m : Message) : bool := String.eqb (type m) "SET_THEME".
Definition is_PAUSE_GAME (m : Message) : bool := String.eqb (type m) "PAUSE_GAME".

(** Payload of the most recent message of a kind, if any was sent. *)
Definition last_payload (kind : Message -> bool) (l : list Message)
  : option JSValue :=
  fold_left (fun acc m => if kind m then Some (payload m) else acc) l None.

Definition last_set_theme : list Message -> option JSValue :=
  last_payload is_SET_THEME.

Definition last_pause_game : list Message -> option JSValue :=
  last_payload is_PAUSE_GAME.

Fixpoint last_opt {A : Type} (l : list A) : option A :=
  match l with
  | [] => None
  | [x] => Some x
  | _ :: rest => last_opt rest
  end.

(** What the embedded surface must be able to parse (spec section 6). *)
Definition wire_ok (m : Message) : bool :=
  match payload m with
  | JSString v =>
      String.eqb (type m) "SET_THEME"
      && (String.eqb v "dark" || String.eqb v "light")
  | JSBool _ => String.eqb (type m) "PAUSE_GAME"
  end.

Definition timers_sorted (l : list Timer) : Prop :=
  forall l1 x l2, l = l1 ++ x :: l2 -> Forall (fun y => due x <= due y) l2.

(** ** Invariants of the running shell *)

Definition primary_url : string := "./init/gemini3.html".

Record Base (s : State) : Prop := mkBase {
  base_model : activeModel s = "gemini3";
  base_inflight : Forall (fun u => u = primary_url) (inflight s);
  base_ref :
    iframeRef s
    = if truthy (gameHtml s) then Some (mkIframe (Some window)) else None;
  base_bound : Forall (fun x => due x <= clock s + 100) (timers s);
  base_sorted : timers_sorted (timers s);
  base_gate_timers :
    Forall (fun x => captured_showDisclaimer x = false ->
                     showDisclaimer s = false) (timers s);
  base_gate_posted : In (PAUSE_GAME false) (posted s) -> showDisclaimer s = false;
  base_wire : Forall (fun m => wire_ok m = true) (posted s)
}.

(** The newest pending broadcast, or else the newest message of each kind
    already sent, carries the current theme and gate. *)
Definition Sync (s : State) : Prop :=
  surface_ready s = true ->
  match last_opt (timers s) with
  | Some x =>
      captured_themeMode x = themeMode s
      /\ captured_showDisclaimer x = showDisclaimer s
  | None =>
      last_set_theme (posted s) = Some (JSString (theme_string (themeMode s)))
      /\ last_pause_game (posted s) = Some (JSBool (showDisclaimer s))
  end.

Definition Inv (s : State) : Prop := Base s /\ Sync s.

(** The messages an event sends. *)
Definition sent (e : Event) (s : State) : list Message :=
  match e with
  | ThemeClick =>
      if surface_ready s then [SET_THEME (flip (themeMode s))] else []
  | Elapse ms =>
      if surface_ready s
      then flat_map timer_messages (filter (is_due (clock s + ms)) (timers s))
      else []
  | FetchSettled _ _ | StartClick => []
  end.

(** ** Sample states *)

(** The game is mounted, Start was confirmed, every broadcast has fired. *)
Definition playing_state : State :=
  Eval vm_compute in
    match run [FetchSettled primary_url (Body "<html>game</html>");
               Elapse 100; StartClick; Elapse 100] init with
    | Some s => s
    | None => init
    end.

(** An iframe element that is not attached to a document. *)
Definition detached_state : State :=
  set_iframeRef (Some (mkIframe None)) playing_state.

(** The shell with the game mounted and the first broadcast delivered. *)
Definition ready_state : State :=
  Eval vm_compute in
    match run [FetchSettled primary_url (Body "<html>game</html>");
               Elapse 100] init with
    | Some s => s
    | None => init
    end.

(** Start was confirmed 50 ms after the mount: the post-mount broadcast
    is still pending. *)
Definition racing_state : State :=
  Eval vm_compute in
    match run [FetchSettled primary_url (Body "<html>game</html>");
               Elapse 50; StartClick] init with
    | Some s => s
    | None => init
    end.

(** ** Conditions used in the statements *)

(** The promise of [fetch] or of [res.text()] rejected: the outcomes that
    reach the catch branch of [load]. *)
Definition is_rejection (o : Outcome) : bool :=
  match o with
  | NetworkError | BodyError => true
  | Body _ => false
  end.

(** What happened to the request.  [fetch] rejects only when no response
    arrives; a response with any status, 404 included, fulfils the
    promise, and [load] reads its text without looking at [res.ok] or
    [res.status] (lines 42-43). *)
Inductive Retrieval : Type :=
| NoResponse
| UnreadableBody (status : N)
| Response (status : N) (body : string).

(** What [load] sees of it. *)
Definition observed (r : Retrieval) : Outcome :=
  match r with
  | NoResponse => NetworkError
  | UnreadableBody _ => BodyError
  | Response _ body => Body body
  end.

(** [res.ok]: the status is in the range 200-299. *)
Definition response_ok (status : N) : bool :=
  (200 <=? status) && (status <=? 299).

(** FetchError in the words of the specification (section 4.1): the
    underlying retrieval failed, by a network failure or a path
    failure. *)
Definition is_fetch_error (r : Retrieval) : bool :=
  match r with
  | NoResponse | UnreadableBody _ => true
  | Response status _ => negb (response_ok status)
  end.


Definition is_toggle_or_wait (e : Event) : bool :=
  match e with
  | ThemeClick | Elapse _ => true
  | FetchSettled _ _ | StartClick => false
  end.

(** The events after which the broadcast effect finds a surface: a body
    arrives and mounts a new iframe, Start is confirmed, or the theme is
    toggled, the last two on a mounted surface. *)
Definition schedules_broadcast (e : Event) (s : State) : bool :=
  match e with
  | FetchSettled url (Body html) =>
      existsb (String.eqb url) (inflight s)
      && negb (truthy (gameHtml s)) && truthy (Some html)
  | StartClick => showDisclaimer s && surface_ready s
  | ThemeClick => surface_ready s
  | FetchSettled _ _ | Elapse _ => false
  end.

(** ** Readings of the specification that the component does not meet *)

(** Confirming Start on a mounted surface posts PAUSE_GAME(false) at
    once. *)
Definition confirm_broadcasts_at_once : Prop :=
  forall s s',
    reachable s -> surface_ready s = true ->
    step StartClick s = Some s' ->
    In (PAUSE_GAME false) (posted s').

(** The first broadcast is SET_THEME("light") followed by
    PAUSE_GAME(true). *)
Definition initial_broadcast_theme_first : Prop :=
  forall html d s,
    truthy (Some html) = true -> 100 <= d ->
    run [FetchSettled primary_url (Body html); Elapse d] init = Some s ->
    posted s = [SET_THEME light; PAUSE_GAME true].

(** Every PAUSE_GAME carries the gate as it is when the message is
    posted. *)
Definition pause_payload_is_current_gate : Prop :=
  forall s e s' ms b,
    reachable s -> step e s = Some s' ->
    posted s' = posted s ++ ms ->
    In (PAUSE_GAME b) ms ->
    b = showDisclaimer s'.

(** ** The rendered tree (lines 73-179)

    The parts of the returned JSX that depend on the state: the colours of
    the [styles] object, the label of the theme button, the iframe and the
    overlay. *)

Record ModalView : Type := mkModalView {
  modal_background : string;              (* styles.modal, line 99 *)
  instructionItem_borderTop : string;     (* line 113 *)
  ctaButton_background : string;          (* line 116 *)
  ctaButton_color : string                (* line 116 *)
}.

Record View : Type := mkView {
  container_background : string;          (* line 76 *)
  container_color : string;               (* line 76 *)
  btn_border : string;                    (* line 93 *)
  btn_color : string;                     (* line 93 *)
  btn_label : string;                     (* line 132 *)
  iframe_srcDoc : option string;          (* lines 137-144, None: no iframe *)
  modal : option ModalView                (* lines 147-177, None: no overlay *)
}.

Definition render (s : State) : View :=
  {| container_background := bg s;
     container_color := text s;
     btn_border := String.append "1px solid " (text s);
     btn_color := text s;
     btn_label := if Theme_eqb (themeMode s) light then "Dark" else "Light";
     iframe_srcDoc := if truthy (gameHtml s) then gameHtml s else None;
     modal :=
       if showDisclaimer s
       then Some {| modal_background :=
                      if Theme_eqb (themeMode s) light
                      then "rgba(242, 238, 224, 0.98)"
                      else "rgba(14, 15, 17, 0.98)";
                    instructionItem_borderTop :=
                      String.append "1px solid " (text s);
                    ctaButton_background := text s;
                    ctaButton_color := bg s |}
       else None |}.

(** ** Conditions on runs and logs *)

Definition is_fetch_settled (e : Event) : bool :=
  match e with
  | FetchSettled _ _ => true
  | ThemeClick | StartClick | Elapse _ => false
  end.

Definition is_start_click (e : Event) : bool :=
  match e with
  | StartClick => true
  | FetchSettled _ _ | ThemeClick | Elapse _ => false
  end.

(** The three stages of the one load of a session. *)
Definition loading (s : State) : Prop :=
  inflight s = [primary_url] /\ gameHtml s = None /\ console s = [].

Definition load_failed (s : State) : Prop :=
  inflight s = [] /\ gameHtml s = None
  /\ console s = ["Failed to load game"].

Definition loaded (s : State) : Prop :=
  inflight s = [] /\ (exists html, gameHtml s = Some html) /\ console s = [].

(** A log in which every PAUSE_GAME is directly followed by a SET_THEME;
    [expect_theme] says that the message before was a PAUSE_GAME. *)
Fixpoint paired_from (expect_theme : bool) (l : list Message) : bool :=
  match l with
  | [] => negb expect_theme
  | m :: rest =>
      if expect_theme then is_SET_THEME m && paired_from false rest
      else if is_PAUSE_GAME m then paired_from true rest
      else paired_from false rest
  end.

(** The gate is dismissed and no pending broadcast remembers it shown. *)
Definition gate_settled (s : State) : Prop :=
  showDisclaimer s = false
  /\ Forall (fun x => captured_showDisclaimer x = false) (timers s).

(** A body that is the empty string arrived, then the user toggled the
    theme and waited. *)
Definition empty_body_state : State :=
  Eval vm_compute in
    match run [FetchSettled primary_url (Body ""); ThemeClick; Elapse 150]
              init with
    | Some s => s
    | None => init
    end.

(** * Proofs *)

(** ** Closed forms: no handler throws *)

Lemma surface_guard_normal s : surface_guard s = Normal (surface_ready s).
Proof.
  unfold surface_guard, surface_ready.
  destruct (iframeRef s) as [f|]; simpl; [destruct (contentWindow f)|];
    reflexivity.
Qed.

Lemma postMessage_optional_normal m s :
  postMessage_optional m s
  = Normal (if surface_ready s then push [m] s else s).
Proof.
  unfold postMessage_optional, surface_ready.
  destruct (iframeRef s) as [f|]; [destruct (contentWindow f)|]; reflexivity.
Qed.

Lemma broadcast_effect_normal s :
  broadcast_effect s
  = Normal (if surface_ready s
            then setTimeout (showDisclaimer s) (themeMode s) 100 s
            else s).
Proof.
  unfold broadcast_effect. rewrite surface_guard_normal. simpl.
  destruct (surface_ready s); reflexivity.
Qed.

Lemma timer_callback_normal t s :
  timer_callback t s
  = Normal (if surface_ready s then push (timer_messages t) s else s).
Proof.
  unfold timer_callback. rewrite postMessage_optional_normal. simpl.
  rewrite postMessage_optional_normal.
  destruct s as [th sd am gh [[[w|]]|] ck tm fl ps cs]; simpl; try reflexivity.
  unfold push; simpl. rewrite <- app_assoc. reflexivity.
Qed.

Lemma toggleTheme_normal s :
  toggleTheme s
  = Normal (let s1 := setThemeMode (flip (themeMode s)) s in
            if surface_ready s then push [SET_THEME (flip (themeMode s))] s1
            else s1).
Proof.
  unfold toggleTheme. rewrite surface_guard_normal.
  destruct s as [[] sd am gh [[[w|]]|] ck tm fl ps cs]; reflexivity.
Qed.

Lemma rerender_normal prev s : rerender prev s = Normal (rerender_state prev s).
Proof.
  unfold rerender, rerender_state. cbv zeta.
  destruct (broadcast_deps_changed prev (commit_ref prev s)); simpl.
  - apply broadcast_effect_normal.
  - reflexivity.
Qed.

Lemma surface_ready_push ms s : surface_ready (push ms s) = surface_ready s.
Proof. reflexivity. Qed.

Lemma push_push a b s : push b (push a s) = push (a ++ b) s.
Proof. unfold push, set_posted; simpl. now rewrite app_assoc. Qed.

Lemma push_nil s : push [] s = s.
Proof. destruct s; unfold push, set_posted; simpl. now rewrite app_nil_r. Qed.

Lemma fire_normal l : forall s, fire l s = Normal (fire_state l s).
Proof.
  induction l as [|x rest IH]; intros s; simpl.
  - unfold fire_state; simpl. rewrite push_nil.
    now destruct (surface_ready s).
  - rewrite timer_callback_normal. simpl. rewrite IH. f_equal.
    unfold fire_state. destruct (surface_ready s) eqn:R.
    + rewrite surface_ready_push, R, push_push. reflexivity.
    + now rewrite R.
Qed.

Lemma elapse_normal ms s : elapse ms s = Normal (elapse_state ms s).
Proof. unfold elapse, elapse_state. apply fire_normal. Qed.

Lemma handle_normal e s : handle e s = Normal (handle_state e s).
Proof.
  destruct e; simpl.
  - apply rerender_normal.
  - unfold on_theme_click. rewrite toggleTheme_normal. simpl.
    apply rerender_normal.
  - apply rerender_normal.
  - apply elapse_normal.
Qed.

Lemma step_enabled e s :
  step e s = if enabled e s then Some (handle_state e s) else None.
Proof. unfold step. now rewrite handle_normal. Qed.

Lemma run_app es1 : forall es2 s,
  run (es1 ++ es2) s
  = match run es1 s with Some s1 => run es2 s1 | None => None end.
Proof.
  induction es1 as [|e es1 IH]; intros es2 s; simpl; [reflexivity|].
  destruct (step e s); [apply IH | reflexivity].
Qed.

(** ** Observations on the message log and the timer queue *)

Lemma last_opt_snoc {A : Type} (l : list A) (x : A) : last_opt (l ++ [x]) = Some x.
Proof.
  induction l as [|a l IH]; simpl; [reflexivity|].
  destruct (l ++ [x]) eqn:E; [destruct l; discriminate | exact IH].
Qed.

Lemma last_opt_nil_inv {A : Type} (l : list A) : last_opt l = None -> l = [].
Proof.
  destruct l as [|a l] using rev_ind; [reflexivity|].
  rewrite last_opt_snoc. discriminate.
Qed.

Lemma last_payload_app kind l1 l2 :
  last_payload kind (l1 ++ l2)
  = fold_left (fun acc m => if kind m then Some (payload m) else acc) l2
              (last_payload kind l1).
Proof. unfold last_payload. apply fold_left_app. Qed.

Lemma last_set_theme_timers l : forall acc,
  fold_left (fun acc m => if is_SET_THEME m then Some (payload m) else acc)
            (flat_map timer_messages l) acc
  = match last_opt l with
    | Some x => Some (JSString (theme_string (captured_themeMode x)))
    | None => acc
    end.
Proof.
  induction l as [|x l IH] using rev_ind; intros acc; [reflexivity|].
  rewrite flat_map_app, fold_left_app, last_opt_snoc. reflexivity.
Qed.

Lemma last_pause_game_timers l : forall acc,
  fold_left (fun acc m => if is_PAUSE_GAME m then Some (payload m) else acc)
            (flat_map timer_messages l) acc
  = match last_opt l with
    | Some x => Some (JSBool (captured_showDisclaimer x))
    | None => acc
    end.
Proof.
  induction l as [|x l IH] using rev_ind; intros acc; [reflexivity|].
  rewrite flat_map_app, fold_left_app, last_opt_snoc. reflexivity.
Qed.

Lemma timers_sorted_nil : timers_sorted [].
Proof. intros l1 x l2 E. destruct l1; discriminate. Qed.

Lemma timers_sorted_snoc l x :
  timers_sorted l -> Forall (fun y => due y <= due x) l ->
  timers_sorted (l ++ [x]).
Proof.
  intros S B l1 y l2 E.
  destruct l2 as [|z l2 _] using rev_ind.
  - constructor.
  - rewrite app_comm_cons, app_assoc in E.
    apply app_inj_tail in E. destruct E as [E ->].
    apply Forall_app. split.
    + exact (S _ _ _ E).
    + constructor; [|constructor].
      rewrite E in B. apply Forall_app in B. destruct B as [_ B].
      now inversion B.
Qed.

Lemma timers_sorted_tail a l : timers_sorted (a :: l) -> timers_sorted l.
Proof. intros S l1 x l2 E. apply (S (a :: l1) x l2). now rewrite E. Qed.

Lemma timers_sorted_filter p l : timers_sorted l -> timers_sorted (filter p l).
Proof.
  induction l as [|a l IH]; intros S; simpl; [exact timers_sorted_nil|].
  pose proof (IH (timers_sorted_tail _ _ S)) as S'.
  destruct (p a); [|exact S'].
  intros l1 x l2 E. destruct l1 as [|b l1]; simpl in E.
  - injection E as <- <-.
    pose proof (S [] a l eq_refl) as F.
    rewrite Forall_forall in *. intros y Hy.
    apply F. apply filter_In in Hy. tauto.
  - injection E as <- E. exact (S' _ _ _ E).
Qed.

Lemma all_due t l :
  Forall (fun x => due x <= t) l ->
  filter (is_due t) l = l /\ filter (fun x => negb (is_due t x)) l = [].
Proof.
  induction 1 as [|x l Hx _ [IH1 IH2]]; simpl; [split; reflexivity|].
  assert (D : is_due t x = true) by (apply N.leb_le; exact Hx).
  rewrite D. simpl. split; [now f_equal | exact IH2].
Qed.


(** In a sorted queue either everything is due, or the newest timer stays. *)
Lemma due_prefix t l :
  timers_sorted l ->
  (filter (is_due t) l = l /\ filter (fun x => negb (is_due t x)) l = [])
  \/ (filter (fun x => negb (is_due t x)) l <> []
      /\ last_opt (filter (fun x => negb (is_due t x)) l) = last_opt l).
Proof.
  destruct l as [|x l _] using rev_ind; intros S; [left; split; reflexivity|].
  rewrite !filter_app. simpl.
  destruct (is_due t x) eqn:D; simpl.
  - left.
    assert (A : Forall (fun y => due y <= t) l).
    { rewrite Forall_forall. intros y Hy.
      apply in_split in Hy. destruct Hy as (l1 & l2 & ->).
      rewrite <- app_assoc in S. simpl in S.
      pose proof (S l1 y (l2 ++ [x]) eq_refl) as F.
      apply Forall_app in F. destruct F as [_ F]. inversion F; subst.
      unfold is_due in D. apply N.leb_le in D. lia. }
    destruct (all_due t l A) as [E1 E2]. rewrite E1, E2. split; reflexivity.
  - right. rewrite !last_opt_snoc. split; [|reflexivity].
    intros E. apply app_eq_nil in E. destruct E; discriminate.
Qed.

(** ** What each event does to the state *)

Lemma Theme_eqb_refl t : Theme_eqb t t = true.
Proof. now destruct t. Qed.

Lemma Theme_eqb_flip t : Theme_eqb t (flip t) = false.
Proof. now destruct t. Qed.

Lemma option_string_eqb_refl h : option_string_eqb h h = true.
Proof. destruct h; simpl; [apply String.eqb_refl | reflexivity]. Qed.

Lemma option_string_eqb_eq a b : option_string_eqb a b = true -> a = b.
Proof.
  destruct a, b; simpl; try discriminate; [|reflexivity].
  intros E. apply String.eqb_eq in E. now subst.
Qed.

Lemma commit_ref_same prev s :
  gameHtml s = gameHtml prev -> commit_ref prev s = s.
Proof.
  intros E. unfold commit_ref. rewrite E.
  now destruct (truthy (gameHtml prev)).
Qed.

Lemma theme_click_state s :
  handle_state ThemeClick s
  = let s1 := setThemeMode (flip (themeMode s)) s in
    if surface_ready s
    then setTimeout (showDisclaimer s) (flip (themeMode s)) 100
                    (push [SET_THEME (flip (themeMode s))] s1)
    else s1.
Proof.
  unfold handle_state, rerender_state. cbv zeta.
  rewrite commit_ref_same by (destruct (surface_ready s); reflexivity).
  replace (load_deps_changed s _) with false
    by (unfold load_deps_changed; destruct (surface_ready s); simpl;
        now rewrite String.eqb_refl).
  replace (broadcast_deps_changed s _) with true
    by (unfold broadcast_deps_changed; destruct (surface_ready s); simpl;
        now rewrite Theme_eqb_flip, andb_false_r).
  destruct (surface_ready s) eqn:R; simpl.
  - rewrite surface_ready_push. unfold surface_ready in *. simpl. now rewrite R.
  - unfold surface_ready in *. simpl. now rewrite R.
Qed.

Lemma start_click_state s :
  handle_state StartClick s
  = if showDisclaimer s && surface_ready s
    then setTimeout false (themeMode s) 100 (confirm s)
    else confirm s.
Proof.
  unfold handle_state, rerender_state. cbv zeta.
  rewrite commit_ref_same by reflexivity.
  unfold load_deps_changed, broadcast_deps_changed, confirm. simpl.
  rewrite String.eqb_refl, option_string_eqb_refl, Theme_eqb_refl. simpl.
  replace (surface_ready (setShowDisclaimer false s)) with (surface_ready s)
    by reflexivity.
  destruct (showDisclaimer s); reflexivity.
Qed.

Lemma fetch_failed_state url o s :
  (forall html, o <> Body html) ->
  handle_state (FetchSettled url o) s
  = console_error "Failed to load game"
      (set_inflight (remove_first url (inflight s)) s).
Proof.
  intros F. unfold handle_state, rerender_state. cbv zeta.
  assert (E : load_settled url o s
              = console_error "Failed to load game"
                  (set_inflight (remove_first url (inflight s)) s)).
  { destruct o; try reflexivity. now destruct (F html). }
  rewrite E, commit_ref_same by reflexivity.
  unfold load_deps_changed, broadcast_deps_changed. simpl.
  now rewrite String.eqb_refl, eqb_reflx, option_string_eqb_refl, Theme_eqb_refl.
Qed.

Lemma fetch_body_state url html s :
  handle_state (FetchSettled url (Body html)) s
  = let s1 := commit_ref s
                (setGameHtml html
                   (set_inflight (remove_first url (inflight s)) s)) in
    if negb (option_string_eqb (gameHtml s) (Some html)) && surface_ready s1
    then setTimeout (showDisclaimer s) (themeMode s) 100 s1
    else s1.
Proof.
  unfold handle_state, rerender_state. cbv zeta.
  set (s0 := load_settled url (Body html) s).
  assert (P : themeMode (commit_ref s s0) = themeMode s
              /\ showDisclaimer (commit_ref s s0) = showDisclaimer s
              /\ activeModel (commit_ref s s0) = activeModel s
              /\ gameHtml (commit_ref s s0) = Some html).
  { unfold commit_ref.
    destruct (truthy (gameHtml s)), (truthy (gameHtml s0)); simpl; auto. }
  destruct P as (P1 & P2 & P3 & P4).
  unfold load_deps_changed, broadcast_deps_changed.
  rewrite P1, P2, P3, P4, String.eqb_refl, eqb_reflx, Theme_eqb_refl,
    andb_true_r. simpl.
  rewrite P1, P2. reflexivity.
Qed.

(** ** Invariants of the running shell *)

Lemma wire_ok_SET_THEME t : wire_ok (SET_THEME t) = true.
Proof. now destruct t. Qed.

Lemma wire_ok_PAUSE_GAME b : wire_ok (PAUSE_GAME b) = true.
Proof. reflexivity. Qed.

Lemma Forall_remove_first (P : string -> Prop) url l :
  Forall P l -> Forall P (remove_first url l).
Proof.
  induction 1 as [|u l Hu Hl IH]; simpl; [constructor|].
  destruct (String.eqb url u); [exact Hl | now constructor].
Qed.

Lemma Base_setTimeout s :
  Base s -> Base (setTimeout (showDisclaimer s) (themeMode s) 100 s).
Proof.
  intros [B1 B2 B3 B4 B5 B6 B7 B8].
  constructor; simpl; auto.
  - apply Forall_app. split; [exact B4|]. repeat constructor. simpl. lia.
  - apply timers_sorted_snoc; [exact B5 | exact B4].
  - apply Forall_app. split; [exact B6|]. repeat constructor. simpl. auto.
Qed.

Lemma Sync_setTimeout s :
  Sync (setTimeout (showDisclaimer s) (themeMode s) 100 s).
Proof. intros _. simpl. rewrite last_opt_snoc. simpl. auto. Qed.

Lemma Inv_setTimeout s :
  Base s -> Inv (setTimeout (showDisclaimer s) (themeMode s) 100 s).
Proof. intros B. split; [now apply Base_setTimeout | apply Sync_setTimeout]. Qed.

Lemma Inv_not_ready s : Base s -> surface_ready s = false -> Inv s.
Proof. intros B R. split; [exact B|]. intros R'. congruence. Qed.

Lemma Inv_theme_click s : Inv s -> Inv (handle_state ThemeClick s).
Proof.
  intros [[B1 B2 B3 B4 B5 B6 B7 B8] _]. rewrite theme_click_state. cbv zeta.
  destruct (surface_ready s) eqn:R.
  - apply (Inv_setTimeout
             (push [SET_THEME (flip (themeMode s))]
                   (setThemeMode (flip (themeMode s)) s))).
    constructor; simpl; auto.
    + intros I. apply in_app_or in I. destruct I as [I|[I|[]]]; [auto|].
      destruct (themeMode s); discriminate.
    + apply Forall_app. split; [exact B8|].
      repeat constructor. apply wire_ok_SET_THEME.
  - apply Inv_not_ready; [constructor; simpl; auto | exact R].
Qed.

Lemma Inv_start_click s : Inv s -> Inv (handle_state StartClick s).
Proof.
  intros [[B1 B2 B3 B4 B5 B6 B7 B8] Sy]. rewrite start_click_state.
  assert (B : Base (confirm s)).
  { constructor; simpl; auto. rewrite Forall_forall. auto. }
  destruct (showDisclaimer s) eqn:D, (surface_ready s) eqn:R; simpl.
  - apply (Inv_setTimeout (confirm s) B).
  - apply Inv_not_ready; [exact B | exact R].
  - split; [exact B|]. intros _. specialize (Sy R).
    simpl. now rewrite D in Sy.
  - apply Inv_not_ready; [exact B | exact R].
Qed.

Lemma Inv_fetch_settled url o s : Inv s -> Inv (handle_state (FetchSettled url o) s).
Proof.
  intros [[B1 B2 B3 B4 B5 B6 B7 B8] Sy].
  destruct o as [| |html].
  1,2: rewrite fetch_failed_state by discriminate;
    (split; [constructor; simpl; auto; now apply Forall_remove_first
            | exact Sy]).
  rewrite fetch_body_state. cbv zeta.
  set (s0 := setGameHtml html (set_inflight (remove_first url (inflight s)) s)).
  assert (B : Base (commit_ref s s0)).
  { unfold commit_ref.
    destruct (truthy (gameHtml s)) eqn:T0, (truthy (gameHtml s0)) eqn:T1;
      constructor; simpl; auto using Forall_remove_first;
      simpl in T1; rewrite T1; auto. }
  destruct (option_string_eqb (gameHtml s) (Some html)) eqn:C; simpl.
  - apply option_string_eqb_eq in C.
    rewrite commit_ref_same in * by (simpl; congruence).
    split; [exact B | exact Sy].
  - destruct (surface_ready (commit_ref s s0)) eqn:R.
    + replace (showDisclaimer s) with (showDisclaimer (commit_ref s s0)).
      replace (themeMode s) with (themeMode (commit_ref s s0)).
      now apply Inv_setTimeout.
      all: unfold commit_ref;
        now destruct (truthy (gameHtml s)), (truthy (gameHtml s0)).
    + now apply Inv_not_ready.
Qed.

Lemma elapse_state_fields ms s :
  elapse_state ms s
  = mkState (themeMode s) (showDisclaimer s) (activeModel s) (gameHtml s)
      (iframeRef s) (clock s + ms)
      (filter (fun x => negb (is_due (clock s + ms) x)) (timers s))
      (inflight s)
      (if surface_ready s
       then posted s
            ++ flat_map timer_messages (filter (is_due (clock s + ms)) (timers s))
       else posted s)
      (console s).
Proof.
  unfold elapse_state, fire_state. cbv zeta.
  replace (surface_ready (set_timers _ (set_clock _ s))) with (surface_ready s)
    by reflexivity.
  now destruct (surface_ready s).
Qed.

Lemma wire_ok_timers l :
  Forall (fun m => wire_ok m = true) (flat_map timer_messages l).
Proof.
  induction l as [|x l IH]; simpl; [constructor|].
  constructor; [reflexivity|].
  constructor; [apply wire_ok_SET_THEME | exact IH].
Qed.

Lemma In_PAUSE_GAME_timers b l :
  In (PAUSE_GAME b) (flat_map timer_messages l) ->
  exists x, In x l /\ captured_showDisclaimer x = b.
Proof.
  intros I. apply in_flat_map in I. destruct I as (x & Hx & [E|[E|[]]]).
  - exists x. split; [exact Hx|]. now injection E.
  - destruct (captured_themeMode x); discriminate.
Qed.

Lemma Inv_elapse ms s : Inv s -> Inv (handle_state (Elapse ms) s).
Proof.
  intros [[B1 B2 B3 B4 B5 B6 B7 B8] Sy]. simpl.
  rewrite elapse_state_fields. split.
  - constructor; simpl; auto.
    + rewrite Forall_forall in *. intros x Hx. apply filter_In in Hx.
      destruct Hx as [Hx _]. specialize (B4 x Hx). lia.
    + now apply timers_sorted_filter.
    + rewrite Forall_forall in *. intros x Hx. apply filter_In in Hx.
      destruct Hx as [Hx _]. exact (B6 x Hx).
    + destruct (surface_ready s); [|exact B7].
      intros I. apply in_app_or in I. destruct I as [I|I]; [auto|].
      apply In_PAUSE_GAME_timers in I. destruct I as (x & Hx & E).
      apply filter_In in Hx. destruct Hx as [Hx _].
      rewrite Forall_forall in B6. exact (B6 x Hx E).
    + destruct (surface_ready s); [|exact B8].
      apply Forall_app. split; [exact B8 | apply wire_ok_timers].
  - intros R. unfold surface_ready in R. simpl in R.
    change (surface_ready s = true) in R. specialize (Sy R).
    simpl. rewrite R.
    destruct (due_prefix (clock s + ms) (timers s) B5) as [[E1 E2]|[N E]].
    + rewrite E1, E2. simpl.
      unfold last_set_theme, last_pause_game. rewrite !last_payload_app.
      rewrite last_set_theme_timers, last_pause_game_timers.
      destruct (last_opt (timers s)) as [x|].
      * destruct Sy as [-> ->]. split; reflexivity.
      * exact Sy.
    + rewrite E. destruct (last_opt (timers s)) as [x|] eqn:L; [exact Sy|].
      apply last_opt_nil_inv in L. rewrite L in N. now destruct N.
Qed.

Lemma Inv_step e s s' : Inv s -> step e s = Some s' -> Inv s'.
Proof.
  intros I. rewrite step_enabled.
  destruct (enabled e s); [|discriminate].
  intros E. injection E as <-.
  destruct e.
  - now apply Inv_fetch_settled.
  - now apply Inv_theme_click.
  - now apply Inv_start_click.
  - now apply Inv_elapse.
Qed.

Lemma Inv_run es : forall s s', Inv s -> run es s = Some s' -> Inv s'.
Proof.
  induction es as [|e es IH]; intros s s' I; simpl.
  - intros E. now injection E as <-.
  - destruct (step e s) as [s1|] eqn:E; [|discriminate].
    apply IH. exact (Inv_step _ _ _ I E).
Qed.

Lemma mount_normal : mount = Normal init.
Proof. reflexivity. Qed.

Lemma Inv_init : Inv init.
Proof.
  apply Inv_not_ready; [|reflexivity].
  constructor; simpl; try reflexivity; try (repeat constructor).
  - exact timers_sorted_nil.
  - intros [].
Qed.

Lemma Inv_reachable s : reachable s -> Inv s.
Proof. intros [es E]. exact (Inv_run es _ _ Inv_init E). Qed.

Lemma reachable_init : reachable init.
Proof. now exists []. Qed.

Lemma reachable_run es s s' : reachable s -> run es s = Some s' -> reachable s'.
Proof.
  intros [es0 E0] E. exists (es0 ++ es). now rewrite run_app, E0.
Qed.

(** ** Frame properties of the events *)

Lemma commit_ref_fields prev s :
  themeMode (commit_ref prev s) = themeMode s
  /\ showDisclaimer (commit_ref prev s) = showDisclaimer s
  /\ activeModel (commit_ref prev s) = activeModel s
  /\ gameHtml (commit_ref prev s) = gameHtml s
  /\ clock (commit_ref prev s) = clock s
  /\ timers (commit_ref prev s) = timers s
  /\ inflight (commit_ref prev s) = inflight s
  /\ posted (commit_ref prev s) = posted s
  /\ console (commit_ref prev s) = console s.
Proof.
  unfold commit_ref.
  destruct (truthy (gameHtml prev)), (truthy (gameHtml s)); simpl; tauto.
Qed.

Lemma posted_handle e s : posted (handle_state e s) = posted s ++ sent e s.
Proof.
  destruct e as [url o| | |ms].
  - destruct o as [| |html].
    1,2: rewrite fetch_failed_state by discriminate; simpl;
      now rewrite app_nil_r.
    rewrite fetch_body_state. cbv zeta.
    match goal with |- context [commit_ref s ?x] =>
      destruct (commit_ref_fields s x) as (_ & _ & _ & _ & _ & _ & _ & P & _)
    end.
    destruct (_ && _); simpl; rewrite ?P; simpl; now rewrite app_nil_r.
  - rewrite theme_click_state. cbv zeta. simpl.
    destruct (surface_ready s); simpl; [reflexivity | now rewrite app_nil_r].
  - rewrite start_click_state. simpl.
    destruct (_ && _); simpl; now rewrite app_nil_r.
  - simpl. rewrite elapse_state_fields. simpl.
    destruct (surface_ready s); [reflexivity | now rewrite app_nil_r].
Qed.

Lemma showDisclaimer_handle e s :
  showDisclaimer s = false -> showDisclaimer (handle_state e s) = false.
Proof.
  intros D. destruct e as [url o| | |ms].
  - destruct o as [| |html].
    1,2: now rewrite fetch_failed_state by discriminate.
    rewrite fetch_body_state. cbv zeta.
    match goal with |- context [commit_ref s ?x] =>
      destruct (commit_ref_fields s x) as (_ & P & _)
    end.
    destruct (_ && _); simpl; rewrite ?P; exact D.
  - rewrite theme_click_state. cbv zeta.
    destruct (surface_ready s); exact D.
  - rewrite start_click_state. now destruct (_ && _).
  - simpl. now rewrite elapse_state_fields.
Qed.

Lemma activeModel_handle e s : activeModel (handle_state e s) = activeModel s.
Proof.
  destruct e as [url o| | |ms].
  - destruct o as [| |html].
    1,2: now rewrite fetch_failed_state by discriminate.
    rewrite fetch_body_state. cbv zeta.
    match goal with |- context [commit_ref s ?x] =>
      destruct (commit_ref_fields s x) as (_ & _ & P & _)
    end.
    destruct (_ && _); simpl; rewrite ?P; reflexivity.
  - rewrite theme_click_state. cbv zeta. now destruct (surface_ready s).
  - rewrite start_click_state. now destruct (_ && _).
  - simpl. now rewrite elapse_state_fields.
Qed.

Lemma rerender_state_idle s : rerender_state s s = s.
Proof.
  unfold rerender_state. cbv zeta. rewrite commit_ref_same by reflexivity.
  unfold load_deps_changed, broadcast_deps_changed.
  now rewrite String.eqb_refl, eqb_reflx, option_string_eqb_refl, Theme_eqb_refl.
Qed.

Lemma rerender_state_fields prev s :
  themeMode (rerender_state prev s) = themeMode s
  /\ showDisclaimer (rerender_state prev s) = showDisclaimer s
  /\ activeModel (rerender_state prev s) = activeModel s
  /\ gameHtml (rerender_state prev s) = gameHtml s
  /\ clock (rerender_state prev s) = clock s
  /\ posted (rerender_state prev s) = posted s
  /\ console (rerender_state prev s) = console s.
Proof.
  destruct (commit_ref_fields prev s)
    as (P1 & P2 & P3 & P4 & P5 & _ & _ & P8 & P9).
  unfold rerender_state. cbv zeta.
  destruct (load_deps_changed _ _), (_ && _); simpl; tauto.
Qed.

(** ** C5: the onboarding gate *)

Lemma showDisclaimer_run es : forall s s',
  showDisclaimer s = false -> run es s = Some s' -> showDisclaimer s' = false.
Proof.
  induction es as [|e es IH]; intros s s' D; simpl.
  - intros E. now injection E as <-.
  - rewrite step_enabled. destruct (enabled e s); [|discriminate].
    apply IH. now apply showDisclaimer_handle.
Qed.

(** C5: the gate starts shown; confirming while shown dismisses it; once it
    is dismissed no sequence of events shows it again, and a further
    confirm changes nothing at all: no state variable, no scheduled
    broadcast, no message. *)
Theorem gate_monotone :
  showDisclaimer init = true
  /\ forall s,
       (showDisclaimer s = true ->
        exists s', step StartClick s = Some s' /\ showDisclaimer s' = false)
       /\ (showDisclaimer s = false ->
           on_start_click s = Normal s
           /\ forall es s', run es s = Some s' -> showDisclaimer s' = false).
Proof.
  split; [reflexivity|]. intros s. split.
  - intros D. exists (handle_state StartClick s). split.
    + rewrite step_enabled. simpl. now rewrite D.
    + rewrite start_click_state. now destruct (_ && _).
  - intros D. split.
    + unfold on_start_click. rewrite rerender_normal. f_equal.
      assert (E : confirm s = s) by (destruct s; simpl in D; now subst).
      rewrite E. apply rerender_state_idle.
    + intros es s'. now apply showDisclaimer_run.
Qed.

Lemma gate_monotone_witness :
  showDisclaimer playing_state = false
  /\ on_start_click playing_state = Normal playing_state
  /\ (forall es s', run es playing_state = Some s' -> showDisclaimer s' = false)
  /\ exists s', step StartClick init = Some s' /\ showDisclaimer s' = false.
Proof.
  destruct gate_monotone as [_ G].
  split; [reflexivity|].
  split; [apply (G playing_state); reflexivity|].
  split; [apply (G playing_state); reflexivity|].
  apply (G init). reflexivity.
Defined.

(** ** C9: sending to a missing surface *)

(** C9: with no iframe element, or an element without a content window,
    the send of [toggleTheme], the broadcast effect and the timer callback
    complete normally and post nothing; the effect does not even schedule
    a broadcast.  No handler throws in any state. *)
Theorem send_is_noop_safe s :
  surface_ready s = false ->
  (exists s1, toggleTheme s = Normal s1
              /\ posted s1 = posted s
              /\ timers s1 = timers s
              /\ themeMode s1 = flip (themeMode s))
  /\ broadcast_effect s = Normal s
  /\ (forall t, timer_callback t s = Normal s)
  /\ (forall e, exists s', handle e s = Normal s' /\ posted s' = posted s).
Proof.
  intros R. repeat split.
  - eexists. split; [apply toggleTheme_normal|]. cbv zeta. rewrite R.
    repeat split.
  - now rewrite broadcast_effect_normal, R.
  - intros t. now rewrite timer_callback_normal, R.
  - intros e. exists (handle_state e s). split; [apply handle_normal|].
    rewrite posted_handle.
    destruct e; simpl; rewrite ?R; apply app_nil_r.
Qed.

Lemma send_is_noop_safe_witness :
  (exists s1, toggleTheme detached_state = Normal s1
              /\ posted s1 = posted detached_state
              /\ timers s1 = timers detached_state
              /\ themeMode s1 = flip (themeMode detached_state))
  /\ broadcast_effect detached_state = Normal detached_state
  /\ (forall t, timer_callback t detached_state = Normal detached_state)
  /\ (forall e, exists s', handle e detached_state = Normal s'
                           /\ posted s' = posted detached_state).
Proof. apply (send_is_noop_safe detached_state). reflexivity. Defined.

(** Every handler completes normally in every state. *)
Lemma handlers_total s :
  (exists s', toggleTheme s = Normal s')
  /\ (exists s', broadcast_effect s = Normal s')
  /\ (forall t, exists s', timer_callback t s = Normal s')
  /\ (forall e, exists s', handle e s = Normal s').
Proof.
  repeat split; intros; eexists;
    [apply toggleTheme_normal | apply broadcast_effect_normal
    | apply timer_callback_normal | apply handle_normal].
Qed.

(** ** C10: the selected variant *)

(** C10: the shell starts on the primary variant, no event changes
    [activeModel], and so in every reachable state the variant is the
    primary one and every fetch in flight is for the primary resource; the
    secondary resource is never requested. *)
Theorem variant_is_constant :
  activeModel init = "gemini3"
  /\ (forall e s s', step e s = Some s' -> activeModel s' = activeModel s)
  /\ (forall s, reachable s ->
        activeModel s = "gemini3"
        /\ Forall (fun u => u = "./init/gemini3.html") (inflight s)
        /\ ~ In "./init/gemini2p5.html" (inflight s)).
Proof.
  split; [reflexivity|]. split.
  - intros e s s'. rewrite step_enabled.
    destruct (enabled e s); [|discriminate].
    intros E. injection E as <-. apply activeModel_handle.
  - intros s Rs. destruct (Inv_reachable s Rs) as [[B1 B2 _ _ _ _ _ _] _].
    split; [exact B1|]. split; [exact B2|].
    intros I. rewrite Forall_forall in B2. specialize (B2 _ I). discriminate.
Qed.

Lemma variant_is_constant_witness :
  activeModel playing_state = "gemini3"
  /\ Forall (fun u => u = "./init/gemini3.html") (inflight playing_state)
  /\ ~ In "./init/gemini2p5.html" (inflight playing_state).
Proof.
  apply (proj2 (proj2 variant_is_constant) playing_state).
  exists [FetchSettled primary_url (Body "<html>game</html>");
          Elapse 100; StartClick; Elapse 100].
  reflexivity.
Defined.

(** ** Settling *)

Lemma surface_ready_elapse d s :
  surface_ready (elapse_state d s) = surface_ready s.
Proof. now rewrite elapse_state_fields. Qed.

Lemma surface_ready_theme_click s :
  surface_ready (handle_state ThemeClick s) = surface_ready s.
Proof.
  rewrite theme_click_state. cbv zeta.
  destruct (surface_ready s) eqn:R; exact R.
Qed.

(** Once the newest pending broadcast has fired, the newest message of
    each kind is the one it carried. *)
Lemma newest_timer_settles d s l x :
  surface_ready s = true ->
  timers s = l ++ [x] ->
  due x <= clock s + d ->
  last_set_theme (posted (elapse_state d s))
  = Some (JSString (theme_string (captured_themeMode x)))
  /\ last_pause_game (posted (elapse_state d s))
     = Some (JSBool (captured_showDisclaimer x)).
Proof.
  intros R T D. rewrite elapse_state_fields. simpl. rewrite R, T, filter_app.
  simpl. assert (E : is_due (clock s + d) x = true) by now apply N.leb_le.
  rewrite E. unfold last_set_theme, last_pause_game.
  rewrite !last_payload_app, last_set_theme_timers, last_pause_game_timers.
  now rewrite last_opt_snoc.
Qed.

(** After the settle delay every pending broadcast has fired. *)
Lemma settled_sync d s :
  Inv s -> surface_ready s = true -> 100 <= d ->
  timers (elapse_state d s) = []
  /\ last_set_theme (posted (elapse_state d s))
     = Some (JSString (theme_string (themeMode s)))
  /\ last_pause_game (posted (elapse_state d s))
     = Some (JSBool (showDisclaimer s)).
Proof.
  intros [B Sy] R D. specialize (Sy R).
  assert (A : Forall (fun x => due x <= clock s + d) (timers s)).
  { pose proof (base_bound s B) as F. rewrite Forall_forall in *.
    intros x Hx. specialize (F x Hx). lia. }
  destruct (all_due _ _ A) as [E1 E2].
  rewrite elapse_state_fields. simpl. rewrite R, E1, E2.
  split; [reflexivity|].
  unfold last_set_theme, last_pause_game.
  rewrite !last_payload_app, last_set_theme_timers, last_pause_game_timers.
  destruct (last_opt (timers s)) as [x|].
  - destruct Sy as [-> ->]. split; reflexivity.
  - exact Sy.
Qed.

(** ** C2: theme agreement after settling *)

Lemma run_toggles es : forall s,
  forallb is_toggle_or_wait es = true ->
  exists s', run es s = Some s' /\ surface_ready s' = surface_ready s.
Proof.
  induction es as [|e es IH]; intros s F; simpl in *.
  - now exists s.
  - apply andb_prop in F. destruct F as [Fe F].
    rewrite step_enabled.
    destruct e; try discriminate; simpl enabled; cbv iota.
    + destruct (IH (handle_state ThemeClick s) F) as (s' & E & R).
      exists s'. split; [exact E|]. now rewrite R, surface_ready_theme_click.
    + destruct (IH (handle_state (Elapse ms) s) F) as (s' & E & R).
      exists s'. split; [exact E|].
      rewrite R. simpl. apply surface_ready_elapse.
Qed.

(** C2: on a mounted surface, after any sequence of theme toggles (with
    any waits in between) and a wait of the settle delay or more, the
    last SET_THEME sent carries the theme the shell renders with. *)
Theorem theme_agrees_after_settle s0 es :
  reachable s0 ->
  surface_ready s0 = true ->
  forallb is_toggle_or_wait es = true ->
  exists s1,
    run es s0 = Some s1
    /\ forall d, 100 <= d ->
         exists s2,
           step (Elapse d) s1 = Some s2
           /\ themeMode s2 = themeMode s1
           /\ last_set_theme (posted s2)
              = Some (JSString (theme_string (themeMode s2)))
           /\ bg s2 = bg_of (themeMode s2)
           /\ text s2 = text_of (themeMode s2).
Proof.
  intros Rs R F. destruct (run_toggles es s0 F) as (s1 & E & R1).
  exists s1. split; [exact E|]. intros d D.
  exists (elapse_state d s1). split; [now rewrite step_enabled|].
  assert (I : Inv s1) by (apply Inv_reachable; exact (reachable_run _ _ _ Rs E)).
  rewrite R in R1.
  destruct (settled_sync d s1 I R1 D) as (_ & S & _).
  assert (T : themeMode (elapse_state d s1) = themeMode s1)
    by now rewrite elapse_state_fields.
  rewrite T. repeat split; try exact S; unfold bg, text; now rewrite T.
Qed.

Lemma theme_agrees_after_settle_witness :
  exists s1,
    run [ThemeClick; Elapse 40; ThemeClick; ThemeClick] ready_state = Some s1
    /\ forall d, 100 <= d ->
         exists s2,
           step (Elapse d) s1 = Some s2
           /\ themeMode s2 = themeMode s1
           /\ last_set_theme (posted s2)
              = Some (JSString (theme_string (themeMode s2)))
           /\ bg s2 = bg_of (themeMode s2)
           /\ text s2 = text_of (themeMode s2).
Proof.
  apply (theme_agrees_after_settle ready_state
           [ThemeClick; Elapse 40; ThemeClick; ThemeClick]).
  - exists [FetchSettled primary_url (Body "<html>game</html>"); Elapse 100].
    reflexivity.
  - reflexivity.
  - reflexivity.
Defined.

(** ** C7: toggling twice *)

Lemma flip_involutive t : flip (flip t) = t.
Proof. now destruct t. Qed.

Lemma timers_theme_click s :
  surface_ready s = true ->
  exists x,
    timers (handle_state ThemeClick s) = timers s ++ [x]
    /\ due x = clock (handle_state ThemeClick s) + 100
    /\ captured_themeMode x = flip (themeMode s)
    /\ captured_showDisclaimer x = showDisclaimer s.
Proof.
  intros R. rewrite theme_click_state. cbv zeta. rewrite R.
  eexists. split; [reflexivity|]. repeat split.
Qed.

(** C7: two toggles in a row bring the theme back.  On a mounted surface
    each toggle posts SET_THEME with the theme it switched to, so the last
    one posted carries the original theme, and it still does once the
    delayed broadcasts of both toggles have fired. *)
Theorem toggle_twice s :
  exists s1 s2,
    step ThemeClick s = Some s1
    /\ step ThemeClick s1 = Some s2
    /\ themeMode s1 = flip (themeMode s)
    /\ themeMode s2 = themeMode s
    /\ (surface_ready s = true ->
        posted s1 = posted s ++ [SET_THEME (flip (themeMode s))]
        /\ posted s2 = posted s1 ++ [SET_THEME (themeMode s)]
        /\ last_set_theme (posted s2)
           = Some (JSString (theme_string (themeMode s)))
        /\ forall d, 100 <= d ->
             exists s3,
               step (Elapse d) s2 = Some s3
               /\ themeMode s3 = themeMode s
               /\ last_set_theme (posted s3)
                  = Some (JSString (theme_string (themeMode s)))).
Proof.
  exists (handle_state ThemeClick s).
  exists (handle_state ThemeClick (handle_state ThemeClick s)).
  split; [now rewrite step_enabled|]. split; [now rewrite step_enabled|].
  assert (T : forall s0, themeMode (handle_state ThemeClick s0)
                         = flip (themeMode s0)).
  { intros s0. rewrite theme_click_state. cbv zeta.
    now destruct (surface_ready s0). }
  pose proof (T s) as T1.
  assert (T2 : themeMode (handle_state ThemeClick (handle_state ThemeClick s))
               = themeMode s) by now rewrite T, T, flip_involutive.
  split; [exact T1|]. split; [exact T2|].
  intros R.
  assert (R1 : surface_ready (handle_state ThemeClick s) = true)
    by now rewrite surface_ready_theme_click.
  assert (R2 : surface_ready (handle_state ThemeClick (handle_state ThemeClick s))
               = true) by now rewrite surface_ready_theme_click.
  assert (P1 : posted (handle_state ThemeClick s)
               = posted s ++ [SET_THEME (flip (themeMode s))]).
  { rewrite posted_handle. unfold sent. now rewrite R. }
  assert (P2 : posted (handle_state ThemeClick (handle_state ThemeClick s))
               = posted (handle_state ThemeClick s) ++ [SET_THEME (themeMode s)]).
  { rewrite posted_handle. unfold sent. now rewrite R1, T1, flip_involutive. }
  split; [exact P1|]. split; [exact P2|]. split.
  - rewrite P2. unfold last_set_theme. rewrite last_payload_app. reflexivity.
  - intros d D.
    set (s2 := handle_state ThemeClick (handle_state ThemeClick s)) in *.
    exists (elapse_state d s2). split; [now rewrite step_enabled|].
    split; [now rewrite elapse_state_fields|].
    destruct (timers_theme_click (handle_state ThemeClick s) R1)
      as (x & Q & Dx & Tx & _).
    fold s2 in Q, Dx, Tx.
    destruct (newest_timer_settles d s2 _ x R2 Q) as [L _]; [lia|].
    rewrite L, Tx, T1, flip_involutive. reflexivity.
Qed.

Lemma toggle_twice_witness :
  exists s1 s2,
    step ThemeClick ready_state = Some s1
    /\ step ThemeClick s1 = Some s2
    /\ themeMode s2 = themeMode ready_state
    /\ posted s2
       = posted ready_state ++ [SET_THEME dark] ++ [SET_THEME light]
    /\ last_set_theme (posted s2) = Some (JSString "light").
Proof.
  destruct (toggle_twice ready_state)
    as (s1 & s2 & E1 & E2 & _ & T2 & H).
  destruct (H eq_refl) as (P1 & P2 & L & _).
  exists s1, s2. repeat split; try assumption.
  rewrite P2, P1, <- app_assoc. reflexivity.
Defined.

(** ** Delayed broadcasts *)

Lemma schedules_broadcast_enabled e s :
  schedules_broadcast e s = true -> enabled e s = true.
Proof.
  destruct e as [url [| |html]| | |ms]; simpl; try discriminate; auto.
  - intros H. apply andb_prop in H. destruct H as [H _].
    apply andb_prop in H. tauto.
  - intros H. apply andb_prop in H. tauto.
Qed.

Lemma broadcast_scheduled e s :
  schedules_broadcast e s = true ->
  exists x,
    timers (handle_state e s) = timers s ++ [x]
    /\ due x = clock s + 100
    /\ captured_showDisclaimer x = showDisclaimer (handle_state e s)
    /\ captured_themeMode x = themeMode (handle_state e s)
    /\ surface_ready (handle_state e s) = true
    /\ clock (handle_state e s) = clock s.
Proof.
  destruct e as [url [| |html]| | |ms]; simpl schedules_broadcast;
    try discriminate; intros H.
  - apply andb_prop in H. destruct H as [H T1].
    apply andb_prop in H. destruct H as [_ T0].
    apply negb_true_iff in T0. change (truthy (Some html) = true) in T1.
    rewrite fetch_body_state. cbv zeta.
    assert (C : option_string_eqb (gameHtml s) (Some html) = false).
    { destruct (option_string_eqb (gameHtml s) (Some html)) eqn:C; [|easy].
      apply option_string_eqb_eq in C. congruence. }
    unfold commit_ref. rewrite T0. simpl gameHtml. rewrite T1, C. simpl.
    eexists. split; [reflexivity|]. repeat split.
  - rewrite theme_click_state. cbv zeta. rewrite H.
    eexists. split; [reflexivity|]. repeat split. exact H.
  - apply andb_prop in H. destruct H as [D R].
    rewrite start_click_state, D, R. simpl.
    eexists. split; [reflexivity|]. repeat split. exact R.
Qed.

Lemma broadcast_fires d s l x :
  surface_ready s = true ->
  timers s = l ++ [x] ->
  due x = clock s + 100 ->
  posted (elapse_state d s)
  = posted s
    ++ flat_map timer_messages (filter (is_due (clock s + d)) l)
    ++ (if 100 <=? d then timer_messages x else []).
Proof.
  intros R T D. rewrite elapse_state_fields. simpl. rewrite R, T.
  rewrite filter_app, flat_map_app. simpl.
  replace (is_due (clock s + d) x) with (100 <=? d).
  - now destruct (100 <=? d).
  - unfold is_due. rewrite D.
    destruct (100 <=? d) eqn:E; symmetry.
    + apply N.leb_le in E. apply N.leb_le. lia.
    + apply N.leb_gt in E. apply N.leb_gt. lia.
Qed.

(** ** C3: when the broadcast happens *)

(** C3, counterexample: on the mounted shell, confirming Start posts
    nothing; the log still ends with the post-mount broadcast. *)
Lemma confirm_posts_nothing_at_once : ~ confirm_broadcasts_at_once.
Proof.
  intros H.
  assert (R : reachable ready_state).
  { exists [FetchSettled primary_url (Body "<html>game</html>"); Elapse 100].
    reflexivity. }
  specialize (H ready_state _ R eq_refl eq_refl).
  vm_compute in H. intuition discriminate.
Qed.

(** C3, as the code has it: every run of the broadcast effect that finds
    a surface (after a mount, after Start, after a theme toggle) sets a
    100 ms timer and posts nothing itself; only the toggle handler posts
    at once, and only SET_THEME.  When the clock has advanced by [d], the
    log has grown by the broadcasts that were already pending and came
    due, followed, if [d] is at least 100, by PAUSE_GAME and SET_THEME
    with the gate and theme of the render that set the timer. *)
Theorem broadcast_is_delayed e s :
  schedules_broadcast e s = true ->
  exists s1,
    step e s = Some s1
    /\ posted s1
       = posted s
         ++ match e with
            | ThemeClick => [SET_THEME (themeMode s1)]
            | _ => []
            end
    /\ (e = StartClick ->
        showDisclaimer s1 = false /\ themeMode s1 = themeMode s)
    /\ forall d,
         exists s2,
           step (Elapse d) s1 = Some s2
           /\ posted s2
              = posted s1
                ++ flat_map timer_messages
                     (filter (is_due (clock s + d)) (timers s))
                ++ (if 100 <=? d
                    then [PAUSE_GAME (showDisclaimer s1);
                          SET_THEME (themeMode s1)]
                    else []).
Proof.
  intros H. exists (handle_state e s).
  split; [now rewrite step_enabled, schedules_broadcast_enabled|].
  destruct (broadcast_scheduled e s H) as (x & T & D & Cs & Ct & R & K).
  split; [|split].
  - rewrite posted_handle. f_equal.
    destruct e as [url o| | |ms]; try reflexivity; try discriminate.
    simpl in H. unfold sent. rewrite H, theme_click_state. cbv zeta.
    now rewrite H.
  - intros ->. rewrite start_click_state. now destruct (_ && _).
  - intros d. exists (elapse_state d (handle_state e s)).
    split; [now rewrite step_enabled|].
    rewrite <- K in D.
    rewrite (broadcast_fires d _ _ x R T D), K.
    unfold timer_messages. now rewrite Cs, Ct.
Qed.

Lemma broadcast_is_delayed_witness :
  exists s1,
    step StartClick ready_state = Some s1
    /\ posted s1 = posted ready_state
    /\ showDisclaimer s1 = false
    /\ (exists s2, step (Elapse 99) s1 = Some s2
                   /\ posted s2 = posted ready_state)
    /\ (exists s2, step (Elapse 100) s1 = Some s2
                   /\ posted s2
                      = posted ready_state
                        ++ [PAUSE_GAME false; SET_THEME light]).
Proof.
  destruct (broadcast_is_delayed StartClick ready_state eq_refl)
    as (s1 & E & P & G & F).
  destruct (G eq_refl) as [G1 G2].
  exists s1. split; [exact E|].
  rewrite app_nil_r in P. split; [exact P|]. split; [exact G1|]. split.
  - destruct (F 99) as (s2 & E2 & P2). exists s2. split; [exact E2|].
    rewrite P2, P. vm_compute. reflexivity.
  - destruct (F 100) as (s2 & E2 & P2). exists s2. split; [exact E2|].
    rewrite P2, P, G1, G2. vm_compute. reflexivity.
Defined.

(** ** C6: the first broadcast *)

(** C6, counterexample: the first broadcast starts with PAUSE_GAME. *)
Lemma initial_broadcast_pauses_first : ~ initial_broadcast_theme_first.
Proof.
  intros H.
  specialize (H "<html>game</html>" 100 _ eq_refl ltac:(lia) eq_refl).
  vm_compute in H. discriminate H.
Qed.

(** C6, as the code has it: on a fresh load (light theme, gate shown),
    whenever the body arrives and mounts the surface, nothing is posted
    before 100 ms have passed, and from then on the log is
    PAUSE_GAME(true) followed by SET_THEME("light"). *)
Theorem initial_broadcast html d0 d :
  truthy (Some html) = true ->
  exists s1 s2,
    run [Elapse d0; FetchSettled primary_url (Body html)] init = Some s1
    /\ posted s1 = []
    /\ step (Elapse d) s1 = Some s2
    /\ posted s2
       = if 100 <=? d then [PAUSE_GAME true; SET_THEME light] else [].
Proof.
  intros H.
  set (s0 := handle_state (Elapse d0) init).
  assert (E0 : s0 = mkState light true "gemini3" None None (0 + d0) []
                            [primary_url] [] []).
  { unfold s0. cbn [handle_state]. now rewrite elapse_state_fields. }
  set (e := FetchSettled primary_url (Body html)).
  assert (S : schedules_broadcast e s0 = true) by (rewrite E0; exact H).
  destruct (broadcast_scheduled e s0 S) as (x & T & D & Cs & Ct & R & K).
  destruct (rerender_state_fields s0 (load_settled primary_url (Body html) s0))
    as (F1 & F2 & _).
  change (rerender_state s0 (load_settled primary_url (Body html) s0))
    with (handle_state e s0) in F1, F2.
  assert (P : posted (handle_state e s0) = []).
  { rewrite posted_handle, E0. reflexivity. }
  exists (handle_state e s0), (elapse_state d (handle_state e s0)).
  split; [|split; [exact P|split]].
  - cbn [run]. rewrite step_enabled. cbn [enabled]. fold s0.
    now rewrite step_enabled, (schedules_broadcast_enabled e s0 S).
  - now rewrite step_enabled.
  - rewrite <- K in D. rewrite (broadcast_fires d _ _ x R T D), P.
    replace (timers s0) with (@nil Timer) by now rewrite E0.
    unfold timer_messages. rewrite Cs, Ct, F1, F2, E0. reflexivity.
Qed.

Lemma initial_broadcast_witness :
  exists s1 s2,
    run [Elapse 250; FetchSettled primary_url (Body "<html>game</html>")] init
    = Some s1
    /\ posted s1 = []
    /\ step (Elapse 100) s1 = Some s2
    /\ posted s2 = [PAUSE_GAME true; SET_THEME light].
Proof.
  exact (initial_broadcast "<html>game</html>" 250 100 eq_refl).
Defined.

(** ** C8: what is sent *)

(** C8, counterexample: the post-mount broadcast fires after Start was
    confirmed and posts PAUSE_GAME(true) while the gate is dismissed. *)
Lemma stale_pause_payload : ~ pause_payload_is_current_gate.
Proof.
  intros H.
  assert (R : reachable racing_state).
  { exists [FetchSettled primary_url (Body "<html>game</html>");
            Elapse 50; StartClick].
    reflexivity. }
  specialize (H racing_state (Elapse 50) _
                [PAUSE_GAME true; SET_THEME light] true R eq_refl eq_refl
                (or_introl eq_refl)).
  vm_compute in H. discriminate H.
Qed.

Lemma timers_handle e s x :
  In x (timers (handle_state e s)) ->
  In x (timers s)
  \/ (captured_showDisclaimer x = showDisclaimer (handle_state e s)
      /\ captured_themeMode x = themeMode (handle_state e s)
      /\ due x = clock s + 100).
Proof.
  destruct e as [url o| | |ms].
  - destruct o as [| |html].
    1,2: rewrite fetch_failed_state by discriminate; simpl; auto.
    rewrite fetch_body_state. cbv zeta.
    match goal with |- context [commit_ref s ?y] =>
      destruct (commit_ref_fields s y)
        as (P1 & P2 & _ & _ & P5 & P6 & _); simpl in P1, P2, P5, P6
    end.
    destruct (_ && _); simpl; rewrite ?P6; auto.
    intros I. apply in_app_or in I. destruct I as [I|[<-|[]]]; auto.
    right. simpl. now rewrite P5.
  - rewrite theme_click_state. cbv zeta.
    destruct (surface_ready s); simpl; auto.
    intros I. apply in_app_or in I. destruct I as [I|[<-|[]]]; auto.
  - rewrite start_click_state.
    destruct (_ && _); simpl; auto.
    intros I. apply in_app_or in I. destruct I as [I|[<-|[]]]; auto.
  - simpl. rewrite elapse_state_fields. simpl.
    intros I. apply filter_In in I. tauto.
Qed.

(** C8, as the code has it: every message ever posted has the wire shape
    of section 6.  A PAUSE_GAME is only posted by a timer that comes due,
    and carries the gate that timer captured; every timer captures the
    gate and theme of the render that set it.  So PAUSE_GAME(false) is
    only sent while the gate is dismissed, but PAUSE_GAME(true) can still
    be sent after it was dismissed. *)
Theorem messages_well_formed s e s' :
  reachable s -> step e s = Some s' ->
  posted s' = posted s ++ sent e s
  /\ Forall (fun m => wire_ok m = true) (posted s')
  /\ (forall b, In (PAUSE_GAME b) (sent e s) ->
        (exists x, In x (timers s)
                   /\ due x <= clock s'
                   /\ captured_showDisclaimer x = b)
        /\ (b = false -> showDisclaimer s' = false))
  /\ (forall x, In x (timers s') ->
        In x (timers s)
        \/ (captured_showDisclaimer x = showDisclaimer s'
            /\ captured_themeMode x = themeMode s'
            /\ due x = clock s' + 100)).
Proof.
  intros Rs E.
  pose proof (Inv_reachable s Rs) as [B _].
  pose proof (Inv_reachable s' (reachable_run [e] s s' Rs
                                  ltac:(simpl; now rewrite E))) as [B' _].
  rewrite step_enabled in E. destruct (enabled e s); [|discriminate].
  injection E as <-.
  split; [apply posted_handle|]. split; [exact (base_wire _ B')|]. split.
  - intros b I. split.
    + destruct e as [url o| | |ms]; simpl in I; try easy.
      * destruct (surface_ready s); [|easy].
        destruct I as [I|[]]. destruct (themeMode s); discriminate.
      * destruct (surface_ready s); [|easy].
        apply In_PAUSE_GAME_timers in I. destruct I as (x & Hx & Eb).
        apply filter_In in Hx. destruct Hx as [Hx Dx].
        exists x. split; [exact Hx|]. split; [|exact Eb].
        simpl. rewrite elapse_state_fields. simpl. now apply N.leb_le.
    + intros ->. apply (base_gate_posted _ B').
      rewrite posted_handle. apply in_or_app. now right.
  - intros x I.
    assert (K : clock (handle_state e s) = clock s
                \/ exists ms, e = Elapse ms).
    { destruct e as [url o| | |ms]; [left|left|left|right; eauto].
      - cbn [handle_state].
        destruct (rerender_state_fields s (load_settled url o s))
          as (_ & _ & _ & _ & -> & _).
        now destruct o.
      - rewrite theme_click_state. cbv zeta. now destruct (surface_ready s).
      - rewrite start_click_state. now destruct (_ && _). }
    destruct K as [K|[ms ->]].
    + rewrite K. exact (timers_handle e s x I).
    + left. cbn [handle_state] in I. rewrite elapse_state_fields in I.
      simpl in I. apply filter_In in I. tauto.
Qed.

Lemma messages_well_formed_witness :
  exists s',
    step (Elapse 50) racing_state = Some s'
    /\ posted s' = posted racing_state ++ [PAUSE_GAME true; SET_THEME light]
    /\ Forall (fun m => wire_ok m = true) (posted s')
    /\ showDisclaimer s' = false.
Proof.
  eexists. split; [reflexivity|].
  assert (R : reachable racing_state).
  { exists [FetchSettled primary_url (Body "<html>game</html>");
            Elapse 50; StartClick].
    reflexivity. }
  destruct (messages_well_formed racing_state (Elapse 50) _ R eq_refl)
    as (P & W & _).
  split; [exact P|]. split; [exact W | reflexivity].
Defined.

(** * Further properties of the component *)

(** ** The one load of a session *)

Lemma frame_without_fetch e s :
  is_fetch_settled e = false ->
  gameHtml (handle_state e s) = gameHtml s
  /\ iframeRef (handle_state e s) = iframeRef s
  /\ inflight (handle_state e s) = inflight s
  /\ console (handle_state e s) = console s.
Proof.
  destruct e as [url o| | |ms]; intros F; try discriminate.
  - rewrite theme_click_state. cbv zeta. destruct (surface_ready s); auto.
  - rewrite start_click_state. destruct (_ && _); auto.
  - cbn [handle_state]. rewrite elapse_state_fields. auto.
Qed.

Lemma inflight_fetch_settled url o s :
  inflight (handle_state (FetchSettled url o) s)
  = remove_first url (inflight s).
Proof.
  destruct o as [| |html].
  1,2: now rewrite fetch_failed_state by discriminate.
  rewrite fetch_body_state. cbv zeta.
  match goal with |- context [commit_ref s ?y] =>
    destruct (commit_ref_fields s y) as (_ & _ & _ & _ & _ & _ & P & _)
  end.
  destruct (_ && _); simpl; now rewrite P.
Qed.

(** X1: once no fetch is in flight the load is over for good: whatever
    the user does and however long they wait, no fetch settles any more,
    and the payload, the iframe element and the console stay as they are
    (a failed load is never retried, a loaded game is never replaced or
    cleared). *)
Theorem settled_load_is_final es : forall s s',
  inflight s = [] ->
  run es s = Some s' ->
  existsb is_fetch_settled es = false
  /\ gameHtml s' = gameHtml s
  /\ iframeRef s' = iframeRef s
  /\ console s' = console s
  /\ inflight s' = [].
Proof.
  induction es as [|e es IH]; intros s s' F; simpl.
  - intros E. injection E as <-. auto.
  - rewrite step_enabled. destruct (enabled e s) eqn:En; [|discriminate].
    assert (N : is_fetch_settled e = false).
    { destruct e; try reflexivity. simpl in En. rewrite F in En. discriminate. }
    destruct (frame_without_fetch e s N) as (G1 & G2 & G3 & G4).
    intros E. destruct (IH _ _ (eq_trans G3 F) E) as (H0 & H1 & H2 & H3 & H4).
    rewrite N. simpl. repeat split; congruence.
Qed.

Lemma settled_load_is_final_witness :
  exists s',
    run [ThemeClick; Elapse 30; ThemeClick; Elapse 500] playing_state = Some s'
    /\ gameHtml s' = gameHtml playing_state
    /\ iframeRef s' = iframeRef playing_state
    /\ console s' = console playing_state
    /\ inflight s' = [].
Proof.
  assert (E : exists s',
             run [ThemeClick; Elapse 30; ThemeClick; Elapse 500] playing_state
             = Some s') by (eexists; vm_compute; reflexivity).
  destruct E as [s' E]. exists s'. split; [exact E|].
  destruct (settled_load_is_final _ playing_state s' eq_refl E) as (_ & H).
  exact H.
Defined.

Lemma phase_step e s :
  Inv s -> loading s \/ load_failed s \/ loaded s ->
  enabled e s = true ->
  loading (handle_state e s) \/ load_failed (handle_state e s)
  \/ loaded (handle_state e s).
Proof.
  intros I P En.
  destruct (is_fetch_settled e) eqn:F.
  - destruct e as [url o| | |ms]; try discriminate.
    assert (L : loading s).
    { destruct P as [L|[(L & _)|(L & _)]]; [exact L| |];
        simpl in En; rewrite L in En; discriminate. }
    destruct L as (L1 & L2 & L3).
    assert (U : remove_first url (inflight s) = []).
    { rewrite L1. simpl in *. rewrite L1 in En. simpl in En.
      now destruct (String.eqb url primary_url). }
    pose proof (inflight_fetch_settled url o s) as Q. rewrite U in Q.
    right. destruct o as [| |html].
    1,2: left; rewrite fetch_failed_state in * by discriminate;
      repeat split; simpl; [exact U | exact L2 | now rewrite L3].
    right. split; [exact Q|].
    destruct (rerender_state_fields s (load_settled url (Body html) s))
      as (_ & _ & _ & G & _ & _ & C).
    cbn [handle_state]. rewrite G, C. simpl. split; [eauto | exact L3].
  - destruct (frame_without_fetch e s F) as (G1 & _ & G3 & G4).
    unfold loading, load_failed, loaded. rewrite G1, G3, G4. exact P.
Qed.

(** X2: a session goes through at most one load.  At any moment either
    the primary resource is the only fetch in flight and nothing was
    received or logged, or the load failed (no payload, exactly one
    console line, nothing in flight), or a body was received (nothing in
    flight, nothing on the console). *)
Theorem load_phases s :
  reachable s -> loading s \/ load_failed s \/ loaded s.
Proof.
  intros [es E].
  assert (G : forall es s0 s1,
             Inv s0 -> loading s0 \/ load_failed s0 \/ loaded s0 ->
             run es s0 = Some s1 ->
             loading s1 \/ load_failed s1 \/ loaded s1).
  { clear. induction es as [|e es IH]; intros s0 s1 I P; simpl.
    - intros E. now injection E as <-.
    - destruct (step e s0) as [s'|] eqn:St; [|discriminate].
      pose proof (Inv_step _ _ _ I St) as I'.
      rewrite step_enabled in St.
      destruct (enabled e s0) eqn:En; [|discriminate].
      injection St as <-. apply IH; [exact I'|].
      now apply phase_step. }
  apply (G es init s Inv_init); [|exact E].
  left. repeat split.
Qed.

Lemma load_phases_witness :
  loading playing_state \/ load_failed playing_state \/ loaded playing_state.
Proof.
  apply (load_phases playing_state).
  exists [FetchSettled primary_url (Body "<html>game</html>");
          Elapse 100; StartClick; Elapse 100].
  reflexivity.
Defined.

(** ** Without a surface *)

Lemma surface_ready_falsy s :
  Inv s -> truthy (gameHtml s) = false -> surface_ready s = false.
Proof.
  intros [B _] T. unfold surface_ready. now rewrite (base_ref s B), T.
Qed.

Lemma quiet_without_fetch e s :
  surface_ready s = false -> is_fetch_settled e = false ->
  posted (handle_state e s) = posted s
  /\ (timers s = [] -> timers (handle_state e s) = []).
Proof.
  intros R F. destruct e as [url o| | |ms]; try discriminate.
  - rewrite theme_click_state. cbv zeta. rewrite R. auto.
  - rewrite start_click_state, R, andb_false_r. auto.
  - cbn [handle_state]. rewrite elapse_state_fields. simpl. rewrite R.
    split; [reflexivity|]. now intros ->.
Qed.

Lemma quiet_fetch url o s :
  surface_ready s = false -> truthy (gameHtml s) = false ->
  truthy (gameHtml (handle_state (FetchSettled url o) s)) = false ->
  posted (handle_state (FetchSettled url o) s) = posted s
  /\ timers (handle_state (FetchSettled url o) s) = timers s.
Proof.
  intros R T0 T. split; [rewrite posted_handle; apply app_nil_r|].
  destruct o as [| |html].
  1,2: now rewrite fetch_failed_state by discriminate.
  rewrite fetch_body_state in *. cbv zeta in *.
  assert (T1 : truthy (Some html) = false).
  { match type of T with context [commit_ref s ?y] =>
      destruct (commit_ref_fields s y) as (_ & _ & _ & G & _)
    end.
    destruct (_ && _); simpl in T; rewrite ?G in T; exact T. }
  unfold commit_ref. rewrite T0. simpl gameHtml. rewrite T1.
  replace (surface_ready (setGameHtml html _)) with (surface_ready s)
    by reflexivity.
  now rewrite R, andb_false_r.
Qed.

Lemma quiet_run es : forall s s',
  Inv s -> loading s \/ load_failed s \/ loaded s ->
  (truthy (gameHtml s) = false -> posted s = [] /\ timers s = []) ->
  run es s = Some s' ->
  truthy (gameHtml s') = false -> posted s' = [] /\ timers s' = [].
Proof.
  induction es as [|e es IH]; intros s s' I P Q; simpl.
  - intros E. now injection E as <-.
  - destruct (step e s) as [s1|] eqn:St; [|discriminate].
    pose proof (Inv_step _ _ _ I St) as I1.
    rewrite step_enabled in St. destruct (enabled e s) eqn:En; [|discriminate].
    injection St as <-.
    apply IH; [exact I1 | now apply phase_step |].
    intros T.
    assert (T0 : truthy (gameHtml s) = false).
    { destruct (is_fetch_settled e) eqn:F.
      - destruct e as [url o| | |ms]; try discriminate.
        destruct P as [(_ & -> & _)|[(L & _)|(L & _)]]; [reflexivity| |];
          simpl in En; rewrite L in En; discriminate.
      - destruct (frame_without_fetch e s F) as (G & _). congruence. }
    destruct (Q T0) as [P0 Tm0].
    pose proof (surface_ready_falsy s I T0) as R.
    destruct (is_fetch_settled e) eqn:F.
    + destruct e as [url o| | |ms]; try discriminate.
      destruct (quiet_fetch url o s R T0 T) as [-> ->]. auto.
    + destruct (quiet_without_fetch e s R F) as [-> K]. auto.
Qed.

(** X3: as long as no iframe is rendered (the body has not arrived, the
    load failed, or the body was the empty string), nothing was ever
    posted, no broadcast is pending and the ref is not attached, whatever
    the user clicked in the meantime. *)
Theorem no_surface_no_message s :
  reachable s ->
  truthy (gameHtml s) = false ->
  posted s = [] /\ timers s = [] /\ iframeRef s = None
  /\ iframe_srcDoc (render s) = None.
Proof.
  intros Rs T. pose proof (Inv_reachable s Rs) as I.
  destruct Rs as [es E].
  destruct (quiet_run es init s Inv_init) as [P Tm]; auto.
  - left. repeat split.
  - split; [exact P|]. split; [exact Tm|]. split.
    + destruct I as [B _]. now rewrite (base_ref s B), T.
    + simpl. now rewrite T.
Qed.

Lemma no_surface_no_message_witness :
  gameHtml empty_body_state = Some ""
  /\ themeMode empty_body_state = dark
  /\ posted empty_body_state = [] /\ timers empty_body_state = []
  /\ iframeRef empty_body_state = None
  /\ iframe_srcDoc (render empty_body_state) = None.
Proof.
  split; [reflexivity|]. split; [reflexivity|].
  apply (no_surface_no_message empty_body_state).
  - exists [FetchSettled primary_url (Body ""); ThemeClick; Elapse 150].
    reflexivity.
  - reflexivity.
Defined.

(** X4: the iframe on the page and the ref agree.  In every reachable
    state an iframe is rendered exactly when the ref holds an element with
    a content window, and its srcDoc is then the non-empty payload. *)
Theorem rendered_iframe_matches_ref s :
  reachable s ->
  (iframe_srcDoc (render s) = None <-> surface_ready s = false)
  /\ (forall html,
        iframe_srcDoc (render s) = Some html ->
        gameHtml s = Some html /\ html <> "" /\ surface_ready s = true).
Proof.
  intros Rs. destruct (Inv_reachable s Rs) as [B _].
  pose proof (base_ref s B) as Rf. unfold surface_ready. rewrite Rf.
  simpl. destruct (truthy (gameHtml s)) eqn:T; simpl.
  - split.
    + split; intros H; [|discriminate].
      rewrite H in T. discriminate.
    + intros html H. split; [exact H|]. split; [|reflexivity].
      intros ->. rewrite H in T. discriminate.
  - split; [tauto|]. intros html H. discriminate.
Qed.

Lemma rendered_iframe_matches_ref_witness :
  iframe_srcDoc (render playing_state) = Some "<html>game</html>"
  /\ gameHtml playing_state = Some "<html>game</html>"
  /\ surface_ready playing_state = true.
Proof.
  split; [reflexivity|].
  assert (R : reachable playing_state).
  { exists [FetchSettled primary_url (Body "<html>game</html>");
            Elapse 100; StartClick; Elapse 100].
    reflexivity. }
  destruct (rendered_iframe_matches_ref playing_state R) as [_ H].
  destruct (H "<html>game</html>" eq_refl) as (G & _ & Rd).
  split; [exact G | exact Rd].
Defined.

(** ** The Start button *)

(** X5: in any run, from any state, Start is clicked at most once: the
    button goes away with the overlay and nothing brings the overlay
    back. *)
Theorem start_at_most_once es : forall s s',
  run es s = Some s' ->
  (length (filter is_start_click es) <= 1)%nat
  /\ (existsb is_start_click es = true ->
      showDisclaimer s = true /\ showDisclaimer s' = false
      /\ modal (render s') = None).
Proof.
  assert (Z : forall es s s',
             showDisclaimer s = false -> run es s = Some s' ->
             filter is_start_click es = []).
  { clear. induction es as [|e es IH]; intros s s' D; simpl; [reflexivity|].
    rewrite step_enabled. destruct (enabled e s) eqn:En; [|discriminate].
    intros E. destruct (is_start_click e) eqn:C.
    - destruct e; try discriminate. simpl in En. congruence.
    - eapply IH; [|exact E]. now apply showDisclaimer_handle. }
  induction es as [|e es IH]; intros s s'; simpl.
  - intros _. split; [lia | discriminate].
  - rewrite step_enabled. destruct (enabled e s) eqn:En; [|discriminate].
    intros E. destruct (is_start_click e) eqn:C.
    + destruct e; try discriminate. simpl in En.
      assert (D : showDisclaimer (handle_state StartClick s) = false).
      { rewrite start_click_state. now destruct (_ && _). }
      rewrite (Z _ _ _ D E). split; [simpl; lia|]. intros _.
      pose proof (showDisclaimer_run _ _ _ D E) as D'.
      split; [exact En|]. split; [exact D'|]. simpl. now rewrite D'.
    + destruct (IH _ _ E) as [L H]. split; [exact L|]. simpl.
      intros X. destruct (H X) as (D1 & D2 & D3).
      split; [|auto].
      destruct (showDisclaimer s) eqn:Ds; [reflexivity|].
      rewrite (showDisclaimer_handle e s Ds) in D1. discriminate.
Qed.

Lemma start_at_most_once_witness :
  exists s',
    run [ThemeClick; StartClick; Elapse 20; ThemeClick] ready_state = Some s'
    /\ showDisclaimer ready_state = true
    /\ showDisclaimer s' = false
    /\ modal (render s') = None.
Proof.
  assert (E : exists s',
             run [ThemeClick; StartClick; Elapse 20; ThemeClick] ready_state
             = Some s') by (eexists; vm_compute; reflexivity).
  destruct E as [s' E]. exists s'. split; [exact E|].
  destruct (start_at_most_once _ ready_state s' E) as [_ H].
  exact (H eq_refl).
Defined.

(** ** Colours and labels *)

(** X6: the shell is always drawn in two different colours, and a theme
    toggle swaps them: the background after the click is the text colour
    before it and the other way round.  The Start button is drawn in the
    inverse of the page, and the overlay is the light one exactly when the
    page background is the light one. *)
Theorem toggle_swaps_colours s :
  container_background (render s) <> container_color (render s)
  /\ (exists s1,
        step ThemeClick s = Some s1
        /\ container_background (render s1) = container_color (render s)
        /\ container_color (render s1) = container_background (render s)
        /\ btn_color (render s1) = container_background (render s))
  /\ (forall m, modal (render s) = Some m ->
        ctaButton_background m = container_color (render s)
        /\ ctaButton_color m = container_background (render s)
        /\ (modal_background m = "rgba(242, 238, 224, 0.98)"
            <-> container_background (render s) = "#F2EEE0")).
Proof.
  split; [|split].
  - simpl. unfold bg, text. destruct (themeMode s); discriminate.
  - exists (handle_state ThemeClick s). split; [now rewrite step_enabled|].
    assert (T : themeMode (handle_state ThemeClick s) = flip (themeMode s)).
    { rewrite theme_click_state. cbv zeta. now destruct (surface_ready s). }
    unfold render.
    cbn [container_background container_color btn_color].
    unfold bg, text. rewrite T.
    destruct (themeMode s); repeat split.
  - intros m. simpl. destruct (showDisclaimer s); [|discriminate].
    intros E. injection E as <-. simpl. unfold bg, text.
    destruct (themeMode s); simpl; repeat split; try discriminate.
Qed.

(** X7: the theme button is labelled with the theme a click switches
    to. *)
Theorem label_names_next_theme s s1 :
  step ThemeClick s = Some s1 ->
  (btn_label (render s) = "Dark" <-> themeMode s1 = dark)
  /\ (btn_label (render s) = "Light" <-> themeMode s1 = light)
  /\ btn_label (render s1) <> btn_label (render s).
Proof.
  intros E. rewrite step_enabled in E.
  change (Some (handle_state ThemeClick s) = Some s1) in E.
  assert (s1 = handle_state ThemeClick s) as -> by congruence. clear E.
  assert (T : themeMode (handle_state ThemeClick s) = flip (themeMode s)).
  { rewrite theme_click_state. cbv zeta. now destruct (surface_ready s). }
  unfold render. cbn [btn_label]. rewrite T. destruct (themeMode s); simpl;
    repeat split; intros; try discriminate; try reflexivity; congruence.
Qed.

Lemma label_names_next_theme_witness :
  exists s1,
    step ThemeClick ready_state = Some s1
    /\ btn_label (render ready_state) = "Dark"
    /\ themeMode s1 = dark.
Proof.
  eexists. split; [reflexivity|]. split; [reflexivity|].
  apply (label_names_next_theme ready_state _ eq_refl). reflexivity.
Defined.

Lemma toggle_swaps_colours_witness :
  exists m,
    modal (render init) = Some m
    /\ ctaButton_background m = container_color (render init)
    /\ ctaButton_color m = container_background (render init)
    /\ (modal_background m = "rgba(242, 238, 224, 0.98)"
        <-> container_background (render init) = "#F2EEE0").
Proof.
  eexists. split; [reflexivity|].
  apply (proj2 (proj2 (toggle_swaps_colours init))). reflexivity.
Defined.

(** ** The shape of the message log *)

Lemma paired_from_app a : forall b c,
  paired_from b a = true -> paired_from false c = true ->
  paired_from b (a ++ c) = true.
Proof.
  induction a as [|m r IH]; intros b c; simpl.
  - destruct b; [discriminate | auto].
  - destruct b.
    + intros H C. apply andb_prop in H. destruct H as [H1 H2].
      rewrite H1. simpl. now apply IH.
    + destruct (is_PAUSE_GAME m); intros H C; now apply IH.
Qed.

Lemma paired_from_timers l :
  paired_from false (flat_map timer_messages l) = true.
Proof. induction l as [|x l IH]; simpl; [reflexivity | exact IH]. Qed.

Lemma paired_from_split l1 : forall e b l2,
  paired_from e (l1 ++ PAUSE_GAME b :: l2) = true ->
  exists m l3, l2 = m :: l3 /\ is_SET_THEME m = true.
Proof.
  induction l1 as [|x r IH]; intros e b l2; simpl.
  - destruct e; [discriminate|].
    destruct l2 as [|m l3]; [discriminate|]. simpl.
    intros H. apply andb_prop in H. destruct H as [H _]. eauto.
  - destruct e.
    + intros H. apply andb_prop in H. destruct H as [_ H]. exact (IH _ _ _ H).
    + destruct (is_PAUSE_GAME x); intros H; exact (IH _ _ _ H).
Qed.

Lemma SET_THEME_of_wire m :
  is_SET_THEME m = true -> wire_ok m = true -> exists t, m = SET_THEME t.
Proof.
  destruct m as [ty [v|b]]; unfold is_SET_THEME, wire_ok; simpl.
  - intros T W. apply String.eqb_eq in T. subst ty.
    apply andb_prop in W. destruct W as [_ W]. apply orb_prop in W.
    destruct W as [W|W]; apply String.eqb_eq in W; subst v;
      [exists dark | exists light]; reflexivity.
  - intros T W. apply String.eqb_eq in T, W. congruence.
Qed.

Lemma paired_run es : forall s s',
  paired_from false (posted s) = true -> run es s = Some s' ->
  paired_from false (posted s') = true.
Proof.
  induction es as [|e es IH]; intros s s' P; simpl.
  - intros E. now injection E as <-.
  - rewrite step_enabled. destruct (enabled e s); [|discriminate].
    apply IH. rewrite posted_handle. apply paired_from_app; [exact P|].
    destruct e; simpl; try reflexivity.
    + now destruct (surface_ready s), (themeMode s).
    + destruct (surface_ready s); [apply paired_from_timers | reflexivity].
Qed.

(** X8: in the log of messages posted to the surface, every PAUSE_GAME is
    directly followed by a SET_THEME: a pause state is never sent on its
    own, and never as the last message. *)
Theorem pause_is_followed_by_theme s l1 b l2 :
  reachable s ->
  posted s = l1 ++ PAUSE_GAME b :: l2 ->
  exists t l3, l2 = SET_THEME t :: l3.
Proof.
  intros Rs E. destruct (Inv_reachable s Rs) as [B _].
  destruct Rs as [es R].
  pose proof (paired_run es init s eq_refl R) as P. rewrite E in P.
  destruct (paired_from_split _ _ _ _ P) as (m & l3 & -> & T).
  pose proof (base_wire s B) as W. rewrite E in W.
  apply Forall_app in W. destruct W as [_ W].
  inversion W as [|? ? _ W']; subst. inversion W' as [|? ? Wm _]; subst.
  destruct (SET_THEME_of_wire m T Wm) as [t ->]. eauto.
Qed.

Lemma pause_is_followed_by_theme_witness :
  exists t l3,
    [SET_THEME light; PAUSE_GAME false; SET_THEME light]
    = SET_THEME t :: l3.
Proof.
  apply (pause_is_followed_by_theme playing_state [] true
           [SET_THEME light; PAUSE_GAME false; SET_THEME light]).
  - exists [FetchSettled primary_url (Body "<html>game</html>");
            Elapse 100; StartClick; Elapse 100].
    reflexivity.
  - reflexivity.
Defined.

(** ** After the settle delay *)

(** X9: on a mounted surface, 100 ms after the last event nothing is
    pending, the last SET_THEME sent carries the rendered theme and the
    last PAUSE_GAME sent carries the gate as it is; waiting longer posts
    nothing more. *)
Theorem settled_agreement s d :
  reachable s -> surface_ready s = true -> 100 <= d ->
  exists s1,
    step (Elapse d) s = Some s1
    /\ timers s1 = []
    /\ last_set_theme (posted s1)
       = Some (JSString (theme_string (themeMode s1)))
    /\ last_pause_game (posted s1) = Some (JSBool (showDisclaimer s1))
    /\ forall d2, exists s2,
         step (Elapse d2) s1 = Some s2
         /\ posted s2 = posted s1 /\ timers s2 = [].
Proof.
  intros Rs R D. exists (elapse_state d s).
  split; [now rewrite step_enabled|].
  destruct (settled_sync d s (Inv_reachable s Rs) R D) as (T & L1 & L2).
  assert (F : themeMode (elapse_state d s) = themeMode s
              /\ showDisclaimer (elapse_state d s) = showDisclaimer s)
    by (rewrite elapse_state_fields; auto).
  destruct F as [-> ->]. repeat split; try assumption.
  intros d2. exists (elapse_state d2 (elapse_state d s)).
  split; [now rewrite step_enabled|].
  rewrite (elapse_state_fields d2). simpl. rewrite T. simpl.
  split; [|reflexivity].
  destruct (surface_ready (elapse_state d s)); [apply app_nil_r | reflexivity].
Qed.

Lemma settled_agreement_witness :
  exists s1,
    step (Elapse 100) racing_state = Some s1
    /\ timers s1 = []
    /\ last_set_theme (posted s1)
       = Some (JSString (theme_string (themeMode s1)))
    /\ last_pause_game (posted s1) = Some (JSBool (showDisclaimer s1))
    /\ forall d2, exists s2,
         step (Elapse d2) s1 = Some s2
         /\ posted s2 = posted s1 /\ timers s2 = [].
Proof.
  apply (settled_agreement racing_state 100).
  - exists [FetchSettled primary_url (Body "<html>game</html>");
            Elapse 50; StartClick].
    reflexivity.
  - reflexivity.
  - lia.
Defined.

Lemma gate_settled_step e s :
  gate_settled s ->
  gate_settled (handle_state e s)
  /\ forall b, In (PAUSE_GAME b) (sent e s) -> b = false.
Proof.
  intros [D F]. split; [split|].
  - now apply showDisclaimer_handle.
  - rewrite Forall_forall in *. intros x I.
    destruct (timers_handle e s x I) as [H|(H & _)]; [auto|].
    rewrite H. now apply showDisclaimer_handle.
  - intros b I. destruct e as [url o| | |ms]; simpl in I; try easy.
    + destruct (surface_ready s); [|easy].
      destruct I as [I|[]]. destruct (themeMode s); discriminate.
    + destruct (surface_ready s); [|easy].
      apply In_PAUSE_GAME_timers in I. destruct I as (x & Hx & <-).
      apply filter_In in Hx. rewrite Forall_forall in F. apply F. tauto.
Qed.

Lemma gate_settled_run es : forall s s',
  gate_settled s -> run es s = Some s' ->
  exists ms,
    posted s' = posted s ++ ms
    /\ forall b, In (PAUSE_GAME b) ms -> b = false.
Proof.
  induction es as [|e es IH]; intros s s' G; simpl.
  - intros E. injection E as <-. exists []. split; [now rewrite app_nil_r|].
    intros b [].
  - rewrite step_enabled. destruct (enabled e s); [|discriminate].
    intros E. destruct (gate_settled_step e s G) as [G' S].
    destruct (IH _ _ G' E) as (ms & P & N).
    exists (sent e s ++ ms). split.
    + now rewrite P, posted_handle, app_assoc.
    + intros b I. apply in_app_or in I. destruct I; auto.
Qed.

(** X10: once Start has been confirmed and 100 ms have passed, the game
    is never told to pause again: every PAUSE_GAME posted from then on
    carries false. *)
Theorem no_pause_after_dismissal s d s1 es s2 :
  reachable s -> showDisclaimer s = false -> 100 <= d ->
  step (Elapse d) s = Some s1 ->
  run es s1 = Some s2 ->
  exists ms,
    posted s2 = posted s1 ++ ms
    /\ forall b, In (PAUSE_GAME b) ms -> b = false.
Proof.
  intros Rs Ds D E1 E2. destruct (Inv_reachable s Rs) as [B _].
  rewrite step_enabled in E1.
  change (Some (handle_state (Elapse d) s) = Some s1) in E1.
  assert (s1 = elapse_state d s) as -> by (cbn [handle_state] in E1; congruence).
  apply (gate_settled_run es _ _); [|exact E2].
  assert (A : Forall (fun x => due x <= clock s + d) (timers s)).
  { pose proof (base_bound s B) as F. rewrite Forall_forall in *.
    intros x Hx. specialize (F x Hx). lia. }
  destruct (all_due _ _ A) as [_ N].
  rewrite elapse_state_fields. split; simpl; [exact Ds|].
  rewrite N. constructor.
Qed.

Lemma no_pause_after_dismissal_witness :
  exists s1 s2 ms,
    step (Elapse 100) racing_state = Some s1
    /\ run [ThemeClick; Elapse 100; ThemeClick; Elapse 100] s1 = Some s2
    /\ posted s2 = posted s1 ++ ms
    /\ forall b, In (PAUSE_GAME b) ms -> b = false.
Proof.
  assert (E : exists s1 s2,
             step (Elapse 100) racing_state = Some s1
             /\ run [ThemeClick; Elapse 100; ThemeClick; Elapse 100] s1
                = Some s2)
    by (do 2 eexists; split; vm_compute; reflexivity).
  destruct E as (s1 & s2 & E1 & E2).
  assert (R : reachable racing_state).
  { exists [FetchSettled primary_url (Body "<html>game</html>");
            Elapse 50; StartClick].
    reflexivity. }
  destruct (no_pause_after_dismissal racing_state 100 s1 _ s2 R eq_refl
              ltac:(lia) E1 E2) as (ms & P & N).
  exists s1, s2, ms. auto.
Defined.

(** ** Waiting in pieces *)

Lemma filter_due_split t1 t2 l :
  timers_sorted l -> t1 <= t2 ->
  filter (is_due t1) l
  ++ filter (is_due t2) (filter (fun x => negb (is_due t1 x)) l)
  = filter (is_due t2) l.
Proof.
  intros S L. induction l as [|a l IH]; [reflexivity|].
  pose proof (S [] a l eq_refl) as H.
  specialize (IH (timers_sorted_tail _ _ S)).
  simpl. destruct (is_due t1 a) eqn:D1; simpl.
  - assert (D2 : is_due t2 a = true).
    { unfold is_due in *. apply N.leb_le in D1. apply N.leb_le. lia. }
    rewrite D2. now f_equal.
  - assert (A : Forall (fun x => t1 < due x) l).
    { unfold is_due in D1. apply N.leb_gt in D1.
      rewrite Forall_forall in *. intros x Hx. specialize (H x Hx). lia. }
    clear IH. assert (E1 : filter (is_due t1) l = []
                           /\ filter (fun x => negb (is_due t1 x)) l = l).
    { clear - A. induction A as [|x l Hx _ [I1 I2]]; simpl; [auto|].
      assert (D : is_due t1 x = false) by (apply N.leb_gt; exact Hx).
      rewrite D. simpl. split; [exact I1 | now f_equal]. }
    destruct E1 as [-> ->]. reflexivity.
Qed.

Lemma filter_not_due_twice t1 t2 l :
  t1 <= t2 ->
  filter (fun x => negb (is_due t2 x)) (filter (fun x => negb (is_due t1 x)) l)
  = filter (fun x => negb (is_due t2 x)) l.
Proof.
  intros L. induction l as [|a l IH]; [reflexivity|]. simpl.
  destruct (is_due t1 a) eqn:D1; simpl.
  - assert (D2 : is_due t2 a = true).
    { unfold is_due in *. apply N.leb_le in D1. apply N.leb_le. lia. }
    now rewrite D2.
  - rewrite IH. reflexivity.
Qed.

(** X11: waiting [a] and then [b] milliseconds leaves the shell in the
    same state, with the same messages posted in the same order, as
    waiting [a + b] at once. *)
Theorem elapse_additive s a b :
  reachable s ->
  run [Elapse a; Elapse b] s = run [Elapse (a + b)] s.
Proof.
  intros Rs. destruct (Inv_reachable s Rs) as [B _].
  pose proof (base_sorted s B) as S.
  cbn [run]. rewrite !step_enabled. cbn [enabled]. cbv iota.
  rewrite step_enabled. cbn [enabled]. cbv iota. f_equal.
  cbn [handle_state].
  rewrite (elapse_state_fields b), (elapse_state_fields a),
    (elapse_state_fields (a + b)).
  cbn [themeMode showDisclaimer activeModel gameHtml iframeRef clock timers
       inflight posted console].
  replace (surface_ready (mkState _ _ _ _ (iframeRef s) _ _ _ _ _))
    with (surface_ready s) by reflexivity.
  rewrite N.add_assoc.
  rewrite filter_not_due_twice by lia.
  f_equal.
  destruct (surface_ready s); [|reflexivity].
  rewrite <- app_assoc, <- flat_map_app. f_equal. f_equal.
  apply filter_due_split; [exact S | lia].
Qed.

Lemma elapse_additive_witness :
  run [Elapse 70; Elapse 40] racing_state = run [Elapse (70 + 40)] racing_state.
Proof.
  apply (elapse_additive racing_state 70 40).
  exists [FetchSettled primary_url (Body "<html>game</html>");
          Elapse 50; StartClick].
  reflexivity.
Defined.

(** ** Repeated toggles *)

Lemma even_succ_negb n : Nat.even (S n) = negb (Nat.even n).
Proof.
  induction n as [|n IH]; [reflexivity|].
  change (Nat.even (S (S n))) with (Nat.even n).
  now rewrite IH, negb_involutive.
Qed.

(** X12: after [n] clicks on the theme button the theme is the original
    one if [n] is even and the other one if [n] is odd, the gate is
    untouched, and on a mounted surface the last SET_THEME posted is
    already the theme now rendered, before any delayed broadcast fires. *)
Theorem toggle_parity (n : nat) : forall s,
  exists s',
    run (repeat ThemeClick n) s = Some s'
    /\ themeMode s' = (if Nat.even n then themeMode s else flip (themeMode s))
    /\ showDisclaimer s' = showDisclaimer s
    /\ (surface_ready s = true -> (0 < n)%nat ->
        last_set_theme (posted s')
        = Some (JSString (theme_string (themeMode s')))).
Proof.
  induction n as [|n IH]; intros s.
  - exists s. repeat split. intros _ H. inversion H.
  - destruct (IH (handle_state ThemeClick s)) as (s' & E & T & G & L).
    assert (T1 : themeMode (handle_state ThemeClick s) = flip (themeMode s)
                 /\ showDisclaimer (handle_state ThemeClick s)
                    = showDisclaimer s).
    { rewrite theme_click_state. cbv zeta. now destruct (surface_ready s). }
    destruct T1 as [T1 G1].
    exists s'. split; [|split; [|split]].
    + cbn [repeat run]. now rewrite step_enabled.
    + rewrite T, T1, even_succ_negb.
      destruct (Nat.even n); simpl; [reflexivity | apply flip_involutive].
    + congruence.
    + intros R _. destruct n as [|n].
      * cbn [repeat run] in E.
        assert (s' = handle_state ThemeClick s) as -> by congruence.
        rewrite posted_handle, T1. unfold sent. rewrite R.
        unfold last_set_theme. rewrite last_payload_app. reflexivity.
      * apply L; [now rewrite surface_ready_theme_click | lia].
Qed.

Lemma toggle_parity_witness :
  exists s',
    run (repeat ThemeClick 5) ready_state = Some s'
    /\ themeMode s' = dark
    /\ last_set_theme (posted s') = Some (JSString "dark").
Proof.
  destruct (toggle_parity 5 ready_state) as (s' & E & T & _ & L).
  exists s'. split; [exact E|]. split; [exact T|].
  rewrite (L eq_refl ltac:(lia)), T. reflexivity.
Defined.

(** ** No handler throws *)

(** X13: no code path of the component dereferences a missing iframe or
    window: mounting, every event handler, the timer callback and a
    change of variant complete normally in every state, with or without
    an iframe and whether or not it has a content window. *)
Theorem no_handler_throws s :
  mount <> Throw TypeError
  /\ (forall e, handle e s <> Throw TypeError)
  /\ (forall t, timer_callback t s <> Throw TypeError)
  /\ (forall model, select_variant model s <> Throw TypeError)
  /\ (forall e, step e s = None <-> enabled e s = false).
Proof.
  split; [discriminate|]. split; [|split; [|split]].
  - intros e. rewrite handle_normal. discriminate.
  - intros t. rewrite timer_callback_normal. discriminate.
  - intros model. unfold select_variant. rewrite rerender_normal. discriminate.
  - intros e. rewrite step_enabled.
    destruct (enabled e s); split; intros; congruence.
Qed.

Lemma no_handler_throws_witness :
  handle ThemeClick detached_state <> Throw TypeError
  /\ timer_callback (mkTimer 0 true dark) detached_state <> Throw TypeError
  /\ step StartClick detached_state = None.
Proof.
  destruct (no_handler_throws detached_state) as (_ & H & T & _ & S).
  split; [apply H|]. split; [apply T|]. apply S. reflexivity.
Defined.

(** ** Changing the variant and replacing the payload *)

(** X14: the load effect runs again only when the variant really
    changes.  Selecting the variant that is already active changes
    nothing; selecting another one starts exactly one fetch, of that
    variant's resource, and until its body arrives the payload, the
    iframe, the message log and the pending broadcasts are untouched. *)
Theorem variant_change_refetches s model :
  (String.eqb (activeModel s) model = true ->
   select_variant model s = Normal s)
  /\ (String.eqb (activeModel s) model = false ->
      exists s',
        select_variant model s = Normal s'
        /\ activeModel s' = model
        /\ inflight s' = inflight s ++ [variant_url model]
        /\ gameHtml s' = gameHtml s
        /\ iframeRef s' = iframeRef s
        /\ posted s' = posted s
        /\ timers s' = timers s).
Proof.
  unfold select_variant. rewrite rerender_normal. split; intros E.
  - apply String.eqb_eq in E. subst model. f_equal.
    replace (setActiveModel (activeModel s) s) with s by now destruct s.
    apply rerender_state_idle.
  - eexists. split; [reflexivity|].
    unfold rerender_state. cbv zeta.
    rewrite commit_ref_same by reflexivity.
    unfold load_deps_changed, broadcast_deps_changed. simpl.
    rewrite E, eqb_reflx, option_string_eqb_refl, Theme_eqb_refl. simpl.
    repeat split.
Qed.

Lemma variant_change_refetches_witness :
  select_variant "gemini3" playing_state = Normal playing_state
  /\ exists s',
       select_variant "gemini2p5" playing_state = Normal s'
       /\ inflight s' = ["./init/gemini2p5.html"]
       /\ gameHtml s' = gameHtml playing_state.
Proof.
  split.
  - apply (proj1 (variant_change_refetches playing_state "gemini3")).
    reflexivity.
  - destruct (proj2 (variant_change_refetches playing_state "gemini2p5")
                eq_refl) as (s' & E & _ & F & G & _).
    exists s'. split; [exact E|]. split; [exact F | exact G].
Defined.

(** X15: a body that arrives while a game is mounted replaces the
    payload in the same iframe element and posts nothing at once.  If it
    differs from the current payload a broadcast of the current gate and
    theme is scheduled 100 ms ahead, so the reloaded document is told
    again; if it is the same string nothing is scheduled. *)
Theorem payload_replacement_rebroadcasts s url html :
  surface_ready s = true ->
  truthy (gameHtml s) = true ->
  truthy (Some html) = true ->
  exists s',
    on_fetch_settled url (Body html) s = Normal s'
    /\ gameHtml s' = Some html
    /\ iframe_srcDoc (render s') = Some html
    /\ iframeRef s' = iframeRef s
    /\ posted s' = posted s
    /\ timers s'
       = if option_string_eqb (gameHtml s) (Some html)
         then timers s
         else timers s
              ++ [mkTimer (clock s + 100) (showDisclaimer s) (themeMode s)].
Proof.
  intros R T0 T1. destruct html as [|c h]; [discriminate|].
  exists (handle_state (FetchSettled url (Body (String c h))) s).
  split; [apply rerender_normal|].
  rewrite fetch_body_state. cbv zeta.
  unfold commit_ref. rewrite T0.
  unfold surface_ready in *. simpl. rewrite R, andb_true_r.
  change (match gameHtml s with
          | Some x => String.eqb x (String c h)
          | None => false
          end)
    with (option_string_eqb (gameHtml s) (Some (String c h))).
  destruct (option_string_eqb (gameHtml s) (Some (String c h)));
    simpl; repeat split.
Qed.

Lemma payload_replacement_rebroadcasts_witness :
  exists s',
    on_fetch_settled "./init/gemini2p5.html" (Body "<p>other</p>")
                     playing_state = Normal s'
    /\ gameHtml s' = Some "<p>other</p>"
    /\ iframeRef s' = iframeRef playing_state
    /\ posted s' = posted playing_state
    /\ timers s' = [mkTimer 300 false light].
Proof.
  destruct (payload_replacement_rebroadcasts playing_state
              "./init/gemini2p5.html" "<p>other</p>" eq_refl eq_refl eq_refl)
    as (s' & E & G & _ & I & P & T).
  exists s'. repeat split; assumption.
Defined.

(** ** Failed retrievals *)

(** X16: when the promise of [fetch] or of [res.text()] rejects, the
    payload, the mounted iframe, the pending broadcasts, the messages
    sent, the theme and the gate are what they were; one line is logged on
    the console and nothing else happens. *)
Theorem rejected_fetch_preserves_surface s url o :
  is_rejection o = true ->
  exists s',
    on_fetch_settled url o s = Normal s'
    /\ gameHtml s' = gameHtml s
    /\ iframeRef s' = iframeRef s
    /\ timers s' = timers s
    /\ posted s' = posted s
    /\ themeMode s' = themeMode s
    /\ showDisclaimer s' = showDisclaimer s
    /\ activeModel s' = activeModel s
    /\ console s' = console s ++ ["Failed to load game"].
Proof.
  intros F. eexists. split; [apply rerender_normal|].
  change (rerender_state s (load_settled url o s))
    with (handle_state (FetchSettled url o) s).
  rewrite fetch_failed_state by (intros html ->; discriminate).
  repeat split.
Qed.

Lemma rejected_fetch_preserves_surface_witness :
  exists s',
    on_fetch_settled primary_url NetworkError playing_state = Normal s'
    /\ gameHtml s' = gameHtml playing_state
    /\ iframeRef s' = iframeRef playing_state
    /\ timers s' = timers playing_state
    /\ posted s' = posted playing_state
    /\ themeMode s' = themeMode playing_state
    /\ showDisclaimer s' = showDisclaimer playing_state
    /\ activeModel s' = activeModel playing_state
    /\ console s' = console playing_state ++ ["Failed to load game"].
Proof.
  apply (rejected_fetch_preserves_surface playing_state primary_url
           NetworkError).
  reflexivity.
Defined.

(** C4, on the code: a retrieval that failed with an HTTP error status is
    a FetchError for the specification, but [load] never looks at the
    status.  While the game is loading, the body of such a response, if
    it is not empty, becomes the payload: the iframe is mounted on the
    error page, a broadcast is scheduled, and nothing is logged. *)
Theorem http_error_page_is_installed s url status body :
  existsb (String.eqb url) (inflight s) = true ->
  truthy (gameHtml s) = false ->
  response_ok status = false ->
  truthy (Some body) = true ->
  exists s',
    step (FetchSettled url (observed (Response status body))) s = Some s'
    /\ is_fetch_error (Response status body) = true
    /\ gameHtml s' = Some body
    /\ iframe_srcDoc (render s') = Some body
    /\ surface_ready s' = true
    /\ timers s'
       = timers s ++ [mkTimer (clock s + 100) (showDisclaimer s) (themeMode s)]
    /\ console s' = console s.
Proof.
  intros En T0 Ok T1.
  set (e := FetchSettled url (Body body)).
  assert (S : schedules_broadcast e s = true).
  { unfold e. cbn [schedules_broadcast]. now rewrite En, T0, T1. }
  destruct (broadcast_scheduled e s S) as (x & T & D & Cs & Ct & R & _).
  destruct (rerender_state_fields s (load_settled url (Body body) s))
    as (F1 & F2 & _ & F4 & _ & _ & F7).
  change (rerender_state s (load_settled url (Body body) s))
    with (handle_state e s) in F1, F2, F4, F7.
  change (gameHtml (handle_state e s) = Some body) in F4.
  change (console (handle_state e s) = console s) in F7.
  change (themeMode (handle_state e s) = themeMode s) in F1.
  change (showDisclaimer (handle_state e s) = showDisclaimer s) in F2.
  exists (handle_state e s). cbn [observed]. fold e.
  split; [now rewrite step_enabled, (schedules_broadcast_enabled e s S)|].
  split; [cbn [is_fetch_error]; now rewrite Ok|].
  split; [exact F4|]. split.
  - unfold render. cbn [iframe_srcDoc]. now rewrite F4, T1.
  - split; [exact R|]. split; [|exact F7].
    rewrite T. do 2 f_equal. destruct x as [dx sx tx].
    cbn [due captured_showDisclaimer captured_themeMode] in *.
    now rewrite D, Cs, Ct, F1, F2.
Qed.

Lemma http_error_page_is_installed_witness :
  exists s',
    step (FetchSettled primary_url
            (observed (Response 404 "<h1>404 Not Found</h1>"))) init
    = Some s'
    /\ is_fetch_error (Response 404 "<h1>404 Not Found</h1>") = true
    /\ gameHtml init = None
    /\ gameHtml s' = Some "<h1>404 Not Found</h1>"
    /\ surface_ready s' = true
    /\ console s' = [].
Proof.
  destruct (http_error_page_is_installed init primary_url 404
              "<h1>404 Not Found</h1>" eq_refl eq_refl eq_refl eq_refl)
    as (s' & E & F & G & _ & R & _ & C).
  exists s'. repeat split; assumption.
Defined.

(** ** Which resolution installs the payload *)




